(** * Shader Keying Set Tools (ColorKeys.py): model and verification

    A shallow embedding of the add-on's core functions
    ([extract_shader_keying_set], [apply_shader_keying_set],
    [save_current_preset], [apply_shader_preset]) and of the [execute]
    methods of its six operators.

    The host application (Blender's [bpy]) is modelled as an explicit
    [World]: the datablocks of [bpy.data.materials], the selection of the
    context, the scene's keying sets, the preset collection and the log of
    [keyframe_insert] calls the host accepted.  Python exceptions are an
    explicit outcome ([Raise]) of a state-and-exception monad; the state
    reached when an exception escapes is kept, as in Python. *)

From Stdlib Require Import ZArith Lia Ascii.
From stdpp Require Import base option list gmap strings pretty.

Local Open Scope Z_scope.

(** ** Python string operations used by the source *)

Module Py.

(** [len(s)] *)
Definition len (s : string) : nat := String.length s.

(** [s[n:]] for a non-negative [n] *)
Fixpoint drop (n : nat) (s : string) : string :=
  match n, s with
  | O, _ => s
  | S n', String _ s' => drop n' s'
  | S _, EmptyString => EmptyString
  end.

(** [s[:n]] for a non-negative [n] *)
Fixpoint take (n : nat) (s : string) : string :=
  match n, s with
  | O, _ => EmptyString
  | S n', String c s' => String c (take n' s')
  | S _, EmptyString => EmptyString
  end.

(** [s[:-n]] for a positive [n]: the stop index [len(s) - n] is clamped
    at [0], which is what the truncated subtraction of [nat] computes. *)
Definition drop_end (n : nat) (s : string) : string :=
  take (len s - n) s.

(** [s.startswith(p)] *)
Definition startswith (s p : string) : bool :=
  bool_decide (take (len p) s = p).

(** [s.endswith(p)] *)
Definition endswith (s p : string) : bool :=
  bool_decide (drop (len s - len p) s = p).

(** Whitespace as [str.isspace] sees the characters below 128. *)
Definition isspace (c : ascii) : bool :=
  let n := Ascii.nat_of_ascii c in
  bool_decide ((9 <= n <= 13)%nat \/ (28 <= n <= 32)%nat).

Fixpoint lstrip (s : string) : string :=
  match s with
  | EmptyString => EmptyString
  | String c s' => if isspace c then lstrip s' else s
  end.

(** [rstrip] keeps a character when it is not whitespace or when
    something is kept after it. *)
Fixpoint rstrip (s : string) : string :=
  match s with
  | EmptyString => EmptyString
  | String c s' =>
      match rstrip s' with
      | EmptyString => if isspace c then EmptyString else String c EmptyString
      | r => String c r
      end
  end.

(** [s.strip()] *)
Definition strip (s : string) : string := rstrip (lstrip s).

(** Truthiness of a string: [if s] / [if not s]. *)
Definition truthy (s : string) : bool :=
  match s with EmptyString => false | _ => true end.

End Py.

Arguments Py.len : simpl never.
Arguments Py.drop : simpl never.
Arguments Py.take : simpl never.
Arguments Py.drop_end : simpl never.
Arguments Py.startswith : simpl never.
Arguments Py.endswith : simpl never.

(** The two markers the source tests paths against. *)
Definition NODE_TREE : string := "node_tree.".
Definition DEFAULT_VALUE : string := ".default_value".

(** ** Exceptions and the state-and-exception monad *)

Inductive exn : Set :=
  | AttributeError   (* attribute access on [None], or a missing attribute *)
  | ValueError       (* [path_resolve] of a path that does not resolve, [json.loads] *)
  | TypeError        (* [keyframe_insert] on a path the owner cannot key, [json.dumps] *)
  | IndexError       (* subscript out of range *)
  | ReferenceError.  (* use of a datablock that is gone *)

Inductive result (A : Type) : Type :=
  | Return (a : A)
  | Raise (e : exn).
Arguments Return {A} a.
Arguments Raise {A} e.

Section Model.

(** The scalars that value resolution yields are the host's. *)
Context {value : Type}.

(** *** Animation data of a node tree *)

Record FCurve := {
  fcu_data_path : string;
  fcu_array_index : Z;
  keyframe_points : list (Z * value)
}.

Record Action := { fcurves : list FCurve }.

Record AnimData := { action : option Action }.

(** A node tree: its animation data and the leaf properties that resolve on
    it, by RNA path relative to the tree. *)
Record NodeTree := {
  animation_data : option AnimData;
  nt_values : gmap string value
}.

(** A material datablock: its node tree ([None] when it has none) and the
    leaf properties that resolve on the material itself. *)
Record Material := {
  node_tree : option NodeTree;
  mat_values : gmap string value
}.

(** Datablocks are identified by name (a reference to a material is its
    name; a name that [bpy.data.materials] does not bind is a reference to
    a datablock that is gone). *)
Inductive ID :=
  | ID_Material (name : string)
  | ID_Other (name : string).

Record Object := { material_slots : list (option string) }.

(** *** Keying sets *)

Record KS_Path := {
  path_id : string;
  data_path : string;
  array_index : Z
}.

Record KeyingSet := {
  KeyingSet_name : string;
  KeyingSet_paths : list KS_Path
}.

(** *** Presets *)

Record ShaderPresetItem := {
  name : string;
  values_json : string
}.

(** One record of a preset: the dict
    [{'material': .., 'data_path': .., 'value': ..}]. *)
Record Entry := {
  e_material : string;
  e_data_path : string;
  e_value : value
}.

(** The text codec, [json.dumps] and [json.loads], is the host's: [None] is
    the exception each raises ([TypeError] for a value that does not
    serialize, [ValueError] for text that does not decode to a list of
    records). *)
Class JsonCodec := {
  json_dumps : list Entry -> option string;
  json_loads : string -> option (list Entry)
}.

Context `{JsonCodec}.

(** *** Value-records *)

(** The receiver of a [keyframe_insert] call. *)
Inductive Receiver :=
  | OnMaterial (m : string)
  | OnNodeTree (m : string)
  | OnSocket (m : string) (base : string).

(** An accepted [keyframe_insert] call: the [index] argument is [None] when
    the call does not pass one. *)
Record Keyframe := {
  kf_on : Receiver;
  kf_data_path : string;
  kf_index : option Z;
  kf_frame : Z
}.

Inductive ReportLevel := INFO | ERROR.

Inductive OperatorStatus := FINISHED | CANCELLED.

(** *** The world: [bpy.data], the context and the scene *)

Record World := {
  materials : gmap string Material;
  selected_ids : option (list ID);
  selected_objects : list Object;
  frame_current : Z;
  keying_sets : list KeyingSet;
  keying_sets_active : option nat;
  ks_apply_shader_set : string;
  shader_presets : list ShaderPresetItem;
  shader_preset_index : Z;
  keyframes : list Keyframe;
  reports : list (ReportLevel * string)
}.

Definition set_materials (x : gmap string Material) (w : World) : World :=
  {| materials := x; selected_ids := selected_ids w;
     selected_objects := selected_objects w; frame_current := frame_current w;
     keying_sets := keying_sets w; keying_sets_active := keying_sets_active w;
     ks_apply_shader_set := ks_apply_shader_set w;
     shader_presets := shader_presets w;
     shader_preset_index := shader_preset_index w;
     keyframes := keyframes w; reports := reports w |}.

Definition set_keying_sets (x : list KeyingSet) (w : World) : World :=
  {| materials := materials w; selected_ids := selected_ids w;
     selected_objects := selected_objects w; frame_current := frame_current w;
     keying_sets := x; keying_sets_active := keying_sets_active w;
     ks_apply_shader_set := ks_apply_shader_set w;
     shader_presets := shader_presets w;
     shader_preset_index := shader_preset_index w;
     keyframes := keyframes w; reports := reports w |}.

Definition set_keying_sets_active (x : option nat) (w : World) : World :=
  {| materials := materials w; selected_ids := selected_ids w;
     selected_objects := selected_objects w; frame_current := frame_current w;
     keying_sets := keying_sets w; keying_sets_active := x;
     ks_apply_shader_set := ks_apply_shader_set w;
     shader_presets := shader_presets w;
     shader_preset_index := shader_preset_index w;
     keyframes := keyframes w; reports := reports w |}.

Definition set_shader_presets (x : list ShaderPresetItem) (w : World) : World :=
  {| materials := materials w; selected_ids := selected_ids w;
     selected_objects := selected_objects w; frame_current := frame_current w;
     keying_sets := keying_sets w; keying_sets_active := keying_sets_active w;
     ks_apply_shader_set := ks_apply_shader_set w;
     shader_presets := x;
     shader_preset_index := shader_preset_index w;
     keyframes := keyframes w; reports := reports w |}.

Definition set_shader_preset_index (x : Z) (w : World) : World :=
  {| materials := materials w; selected_ids := selected_ids w;
     selected_objects := selected_objects w; frame_current := frame_current w;
     keying_sets := keying_sets w; keying_sets_active := keying_sets_active w;
     ks_apply_shader_set := ks_apply_shader_set w;
     shader_presets := shader_presets w;
     shader_preset_index := x;
     keyframes := keyframes w; reports := reports w |}.

Definition set_keyframes (x : list Keyframe) (w : World) : World :=
  {| materials := materials w; selected_ids := selected_ids w;
     selected_objects := selected_objects w; frame_current := frame_current w;
     keying_sets := keying_sets w; keying_sets_active := keying_sets_active w;
     ks_apply_shader_set := ks_apply_shader_set w;
     shader_presets := shader_presets w;
     shader_preset_index := shader_preset_index w;
     keyframes := x; reports := reports w |}.

Definition set_reports (x : list (ReportLevel * string)) (w : World) : World :=
  {| materials := materials w; selected_ids := selected_ids w;
     selected_objects := selected_objects w; frame_current := frame_current w;
     keying_sets := keying_sets w; keying_sets_active := keying_sets_active w;
     ks_apply_shader_set := ks_apply_shader_set w;
     shader_presets := shader_presets w;
     shader_preset_index := shader_preset_index w;
     keyframes := keyframes w; reports := x |}.

(** *** The monad *)

Definition M (A : Type) : Type := World -> result A * World.

Definition ret {A} (a : A) : M A := fun w => (Return a, w).

Definition raise {A} (e : exn) : M A := fun w => (Raise e, w).

Definition bind {A B} (c : M A) (k : A -> M B) : M B :=
  fun w =>
    match c w with
    | (Return a, w') => k a w'
    | (Raise e, w') => (Raise e, w')
    end.

Definition gets {A} (f : World -> A) : M A := fun w => (Return (f w), w).

Definition modify (f : World -> World) : M unit := fun w => (Return tt, f w).

(** [try: c except Exception: pass] *)
Definition try_pass (c : M unit) : M unit :=
  fun w =>
    match c w with
    | (Return _, w') => (Return tt, w')
    | (Raise _, w') => (Return tt, w')
    end.

Notation "x <- c1 ;; c2" := (bind c1 (fun x => c2))
  (at level 100, c1 at next level, right associativity).
Notation "c1 ;;; c2" := (bind c1 (fun _ => c2))
  (at level 100, right associativity).

(** [for a in l: body], with the local variables the body updates as the
    accumulator [s]; an exception leaves the loop. *)
Fixpoint for_fold {A S} (l : list A) (s : S) (body : S -> A -> M S) : M S :=
  match l with
  | [] => ret s
  | a :: l' => s' <- body s a ;; for_fold l' s' body
  end.

(** A method call or attribute access on a value that may be [None]. *)
Definition attr_of {A B} (o : option A) (f : A -> M B) : M B :=
  match o with
  | Some a => f a
  | None => raise AttributeError
  end.

(** ** The host's operations *)

(** A path resolves to the leaf property stored under it; the empty path
    resolves to nothing. *)
Definition rna_lookup (vals : gmap string value) (p : string) : option value :=
  match p with
  | EmptyString => None
  | _ => vals !! p
  end.

(** The path of attribute [attr] of the struct at path [base]. *)
Definition attr_path (base attr : string) : string := base +:+ "." +:+ attr.

(** Use of a material through a reference to it. *)
Definition deref (m : string) : M Material :=
  fun w =>
    match materials w !! m with
    | Some mat => (Return mat, w)
    | None => (Raise ReferenceError, w)
    end.

(** [m.node_tree]: a reference to the tree (it is named by the material
    that owns it), or [None]. *)
Definition Material_node_tree (m : string) : M (option string) :=
  mat <- deref m ;;
  ret (match node_tree mat with Some _ => Some m | None => None end).

(** Use of a node tree through a reference to it. *)
Definition deref_nt (nt : string) : M NodeTree :=
  mat <- deref nt ;;
  match node_tree mat with
  | Some t => ret t
  | None => raise ReferenceError
  end.

(** [m.path_resolve(dp)] *)
Definition Material_path_resolve (m dp : string) : M value :=
  mat <- deref m ;;
  match rna_lookup (mat_values mat) dp with
  | Some v => ret v
  | None => raise ValueError
  end.

(** [nt.path_resolve(dp)], for a path to a leaf property *)
Definition NodeTree_path_resolve (nt dp : string) : M value :=
  t <- deref_nt nt ;;
  match rna_lookup (nt_values t) dp with
  | Some v => ret v
  | None => raise ValueError
  end.

(** A struct is there where a leaf property is stored under it. *)
Definition rna_struct (vals : gmap string value) (base : string) : bool :=
  match base with
  | EmptyString => false
  | _ =>
      bool_decide
        (Exists (fun kv => Py.startswith kv.1 (base +:+ ".") = true)
           (map_to_list vals))
  end.

(** [nt.path_resolve(base)], for a path to a struct (a socket): the result
    is a reference to the struct. *)
Definition NodeTree_path_resolve_struct (nt base : string) : M (string * string) :=
  t <- deref_nt nt ;;
  if rna_struct (nt_values t) base then ret (nt, base) else raise ValueError.

(** The host records a [keyframe_insert] call it accepts. *)
Definition commit (on : Receiver) (dp : string) (index : option Z) (frame : Z) : M unit :=
  modify (fun w =>
    set_keyframes
      (keyframes w ++
         [{| kf_on := on; kf_data_path := dp; kf_index := index; kf_frame := frame |}]) w).

(** [m.keyframe_insert(data_path=dp, index=.., frame=frame)] *)
Definition Material_keyframe_insert (m dp : string) (index : option Z) (frame : Z) : M unit :=
  mat <- deref m ;;
  match rna_lookup (mat_values mat) dp with
  | Some _ => commit (OnMaterial m) dp index frame
  | None => raise TypeError
  end.

(** [nt.keyframe_insert(data_path=dp, index=.., frame=frame)] *)
Definition NodeTree_keyframe_insert (nt dp : string) (index : option Z) (frame : Z) : M unit :=
  t <- deref_nt nt ;;
  match rna_lookup (nt_values t) dp with
  | Some _ => commit (OnNodeTree nt) dp index frame
  | None => raise TypeError
  end.

(** [setattr(sock, attr, val)] *)
Definition Socket_setattr (sock : string * string) (attr : string) (val : value) : M unit :=
  let '(nt, base) := sock in
  mat <- deref nt ;;
  t <- deref_nt nt ;;
  match nt_values t !! attr_path base attr with
  | Some _ =>
      modify (fun w =>
        set_materials
          (<[nt := {| node_tree :=
                        Some {| animation_data := animation_data t;
                                nt_values := <[attr_path base attr := val]> (nt_values t) |};
                      mat_values := mat_values mat |}]> (materials w)) w)
  | None => raise AttributeError
  end.

(** [sock.keyframe_insert(data_path=dp, frame=frame)] *)
Definition Socket_keyframe_insert (sock : string * string) (dp : string) (frame : Z) : M unit :=
  let '(nt, base) := sock in
  t <- deref_nt nt ;;
  match nt_values t !! attr_path base dp with
  | Some _ => commit (OnSocket nt base) dp None frame
  | None => raise TypeError
  end.

(** [scene.keying_sets.get(name)]: the first set of that name; a keying set
    is referred to by its position in the collection. *)
Fixpoint keying_sets_find (nm : string) (l : list KeyingSet) : option nat :=
  match l with
  | [] => None
  | ks :: l' =>
      if decide (KeyingSet_name ks = nm) then Some O
      else S <$> keying_sets_find nm l'
  end.

Definition keying_sets_get (nm : string) : M (option nat) :=
  gets (fun w => keying_sets_find nm (keying_sets w)).

(** [scene.keying_sets.new(name=nm)] *)
Definition keying_sets_new (nm : string) : M nat :=
  fun w =>
    (Return (length (keying_sets w)),
     set_keying_sets
       (keying_sets w ++ [{| KeyingSet_name := nm; KeyingSet_paths := [] |}]) w).

(** The keying set [k] with the paths [ps] / with [added] after its own. *)
Definition with_paths (ps : list KS_Path) (k : KeyingSet) : KeyingSet :=
  {| KeyingSet_name := KeyingSet_name k; KeyingSet_paths := ps |}.

Definition add_paths (added : list KS_Path) (k : KeyingSet) : KeyingSet :=
  with_paths (KeyingSet_paths k ++ added) k.

(** [ks.paths.clear()] *)
Definition paths_clear (ks : nat) : M unit :=
  modify (fun w =>
    set_keying_sets (alter (with_paths []) ks (keying_sets w)) w).

(** [ks.paths.add(target_id=m, data_path=dp, index=idx)] *)
Definition paths_add (ks : nat) (m dp : string) (idx : Z) : M unit :=
  modify (fun w =>
    set_keying_sets
      (alter (add_paths [{| path_id := m; data_path := dp; array_index := idx |}])
         ks (keying_sets w)) w).

(** [ks.paths] *)
Definition paths_of (ks : nat) (w : World) : list KS_Path :=
  match keying_sets w !! ks with
  | Some k => KeyingSet_paths k
  | None => []
  end.

(** An insertion-ordered dict: a key that is set again keeps its place and
    takes the new value. *)
Fixpoint dict_set {V} (k : string) (v : V) (d : list (string * V)) : list (string * V) :=
  match d with
  | [] => [(k, v)]
  | (k', v') :: d' =>
      if decide (k' = k) then (k', v) :: d' else (k', v') :: dict_set k v d'
  end.

Definition dict_of {V} (kvs : list (string * V)) : list (string * V) :=
  fold_left (fun d kv => dict_set kv.1 kv.2 d) kvs [].

Definition dict_values {V} (d : list (string * V)) : list V := d.*2.

(** [scene.shader_presets.add()] *)
Definition shader_presets_add : M nat :=
  fun w =>
    (Return (length (shader_presets w)),
     set_shader_presets
       (shader_presets w ++ [{| name := EmptyString; values_json := EmptyString |}]) w).

(** [item.name = nm] and [item.values_json = js] *)
Definition item_set_name (item : nat) (nm : string) : M unit :=
  modify (fun w =>
    set_shader_presets
      (alter (fun it => {| name := nm; values_json := values_json it |})
         item (shader_presets w)) w).

Definition item_set_values_json (item : nat) (js : string) : M unit :=
  modify (fun w =>
    set_shader_presets
      (alter (fun it => {| name := name it; values_json := js |})
         item (shader_presets w)) w).

(** [json.dumps(data)] and [json.loads(text)] *)
Definition dumps (data : list Entry) : M string :=
  match json_dumps data with
  | Some js => ret js
  | None => raise TypeError
  end.

Definition loads (js : string) : M (list Entry) :=
  match json_loads js with
  | Some entries => ret entries
  | None => raise ValueError
  end.

(** [self.report({level}, msg)] *)
Definition report (level : ReportLevel) (msg : string) : M unit :=
  modify (fun w => set_reports (reports w ++ [(level, msg)]) w).

(** ** Core keying-set functions *)

Definition is_Material (idb : ID) : option string :=
  match idb with
  | ID_Material m => Some m
  | ID_Other _ => None
  end.

(** The materials of the slots of the selected objects, empty slots left
    out. *)
Definition slot_materials (obs : list Object) : list string :=
  concat ((fun ob => omap (fun slot => slot) (material_slots ob)) <$> obs).

(** The body of the loop over the f-curves of material [m]. *)
Definition extract_fcurve (ks : nat) (m : string)
    (seen : gset (string * string * Z)) (fcu : FCurve) : M (gset (string * string * Z)) :=
  match keyframe_points fcu with
  | [] => ret seen
  | _ :: _ =>
      let dp := NODE_TREE +:+ fcu_data_path fcu in
      let key := (m, dp, fcu_array_index fcu) in
      if bool_decide (key ∈ seen) then ret seen
      else
        paths_add ks m dp (fcu_array_index fcu) ;;;
        ret ({[ key ]} ∪ seen)
  end.

(** The body of the loop over the materials. *)
Definition extract_material (ks : nat)
    (seen : gset (string * string * Z)) (m : string) : M (gset (string * string * Z)) :=
  mat <- deref m ;;
  match node_tree mat with
  | None => ret seen
  | Some nt =>
      match animation_data nt with
      | None => ret seen
      | Some ad =>
          match action ad with
          | None => ret seen
          | Some act => for_fold (fcurves act) seen (extract_fcurve ks m)
          end
      end
  end.

Definition extract_shader_keying_set (ks_name : string) : M nat :=
  ks <- keying_sets_get ks_name ;;
  ks <- match ks with
        | Some ks => paths_clear ks ;;; ret ks
        | None => keying_sets_new ks_name
        end ;;
  modify (set_keying_sets_active (Some ks)) ;;;
  ids <- gets selected_ids ;;
  let mats :=
    match ids with
    | Some ((_ :: _) as ids) => omap is_Material ids
    | _ => []
    end in
  obs <- gets selected_objects ;;
  let mats :=
    match mats with
    | [] => slot_materials obs
    | _ :: _ => mats
    end in
  let mats := dict_values (dict_of ((fun m => (m, m)) <$> mats)) in
  for_fold mats ∅ (extract_material ks) ;;;
  gets (fun w => length (paths_of ks w)).

(** The body of the loop of [apply_shader_keying_set]. *)
Definition apply_path (frame : Z) (count : nat) (path : KS_Path) : M nat :=
  let dp_full := data_path path in
  let idx := array_index path in
  (if Py.startswith dp_full NODE_TREE then
     nt <- Material_node_tree (path_id path) ;;
     let dp := Py.drop (Py.len NODE_TREE) dp_full in
     attr_of nt (fun nt => NodeTree_keyframe_insert nt dp None frame)
   else
     let tgt := path_id path in
     if 0 <? idx then Material_keyframe_insert tgt dp_full (Some idx) frame
     else Material_keyframe_insert tgt dp_full None frame) ;;;
  ret (count + 1)%nat.

Definition apply_shader_keying_set (ks_name : string) : M nat :=
  frame <- gets frame_current ;;
  ks <- keying_sets_get ks_name ;;
  match ks with
  | None => ret O
  | Some ks =>
      ps <- gets (paths_of ks) ;;
      for_fold ps O (apply_path frame)
  end.

(** ** Preset management *)

(** The live value of a path entry: through the node tree of the owner
    for a path that starts with the marker, on the owner otherwise. *)
Definition resolve_live (path : KS_Path) : M value :=
  let m := path_id path in
  let dp_full := data_path path in
  if Py.startswith dp_full NODE_TREE then
    let dp := Py.drop (Py.len NODE_TREE) dp_full in
    nt <- Material_node_tree m ;;
    attr_of nt (fun nt => NodeTree_path_resolve nt dp)
  else Material_path_resolve m dp_full.

(** The body of the loop that captures the live values of a keying set; the
    source writes it out in [save_current_preset] and again in
    [KS_OT_BatchCollect.execute]. *)
Definition capture_path (data : list Entry) (path : KS_Path) : M (list Entry) :=
  val <- resolve_live path ;;
  ret (data ++
         [{| e_material := path_id path;
             e_data_path := data_path path;
             e_value := val |}]).

Definition save_current_preset (preset_name : string)
    : M (option ShaderPresetItem * option string) :=
  chosen <- gets ks_apply_shader_set ;;
  ks <- keying_sets_get (Py.strip chosen) ;;
  match ks with
  | None => ret (None, Some "Select a valid Keying Set first")
  | Some ks =>
      if negb (Py.truthy preset_name) then ret (None, Some "Enter a preset name")
      else
        ps <- gets (paths_of ks) ;;
        data <- for_fold ps [] capture_path ;;
        item <- shader_presets_add ;;
        item_set_name item preset_name ;;;
        js <- dumps data ;;
        item_set_values_json item js ;;;
        n <- gets (fun w => length (shader_presets w)) ;;
        modify (set_shader_preset_index (Z.of_nat n - 1)) ;;;
        it <- gets (fun w => shader_presets w !! item) ;;
        ret (it, None)
  end.

(** The body of the loop of [apply_shader_preset]. *)
Definition apply_entry (frame : Z) (_ : unit) (entry : Entry) : M unit :=
  m <- gets (fun w => materials w !! e_material entry) ;;
  match m with
  | None => ret tt
  | Some _ =>
      let m := e_material entry in
      let dp_full := e_data_path entry in
      let val := e_value entry in
      if Py.startswith dp_full NODE_TREE && Py.endswith dp_full DEFAULT_VALUE then
        nt <- Material_node_tree m ;;
        let tail := Py.drop (Py.len NODE_TREE) dp_full in
        let base := Py.drop_end (Py.len DEFAULT_VALUE) tail in
        sock <- attr_of nt (fun nt => NodeTree_path_resolve_struct nt base) ;;
        Socket_setattr sock "default_value" val ;;;
        Socket_keyframe_insert sock "default_value" frame
      else
        try_pass (Material_keyframe_insert m dp_full None frame)
  end.

Definition apply_shader_preset (idx : Z) : M bool :=
  frame <- gets frame_current ;;
  n <- gets (fun w => length (shader_presets w)) ;;
  if (idx <? 0) || (Z.of_nat n <=? idx) then ret false
  else
    item <- gets (fun w => shader_presets w !! Z.to_nat idx) ;;
    match item with
    | None => raise IndexError
    | Some item =>
        entries <- loads (values_json item) ;;
        for_fold entries tt (apply_entry frame) ;;;
        ret true
    end.

(** ** Operators *)

Definition KS_OT_RemovePreset_execute : M OperatorStatus :=
  i <- gets shader_preset_index ;;
  n <- gets (fun w => length (shader_presets w)) ;;
  if (i <? 0) || (Z.of_nat n <=? i) then ret CANCELLED
  else
    modify (fun w => set_shader_presets (delete (Z.to_nat i) (shader_presets w)) w) ;;;
    n' <- gets (fun w => length (shader_presets w)) ;;
    modify (set_shader_preset_index (Z.min i (Z.of_nat n' - 1))) ;;;
    ret FINISHED.

(** The body of the loop of [KS_OT_BatchCollect.execute]. *)
Definition batch_collect_set (cnt : nat) (ks : KeyingSet) : M nat :=
  data <- for_fold (KeyingSet_paths ks) [] capture_path ;;
  itm <- shader_presets_add ;;
  item_set_name itm (KeyingSet_name ks +:+ "_preset") ;;;
  js <- dumps data ;;
  item_set_values_json itm js ;;;
  ret (cnt + 1)%nat.

Definition KS_OT_BatchCollect_execute : M OperatorStatus :=
  sets <- gets keying_sets ;;
  cnt <- for_fold sets O batch_collect_set ;;
  n <- gets (fun w => length (shader_presets w)) ;;
  modify (set_shader_preset_index (Z.of_nat n - 1)) ;;;
  report INFO ("Collected " +:+ pretty cnt +:+ " presets") ;;;
  ret FINISHED.

(** * Vocabulary of the statements *)

(** The host accepts a value-record for the path entry: the owner is live,
    its node tree is there when the path is relative to it, and the path
    resolves to a property. *)
Definition keyable (w : World) (path : KS_Path) : Prop :=
  match materials w !! path_id path with
  | None => False
  | Some mat =>
      if Py.startswith (data_path path) NODE_TREE then
        match node_tree mat with
        | None => False
        | Some t =>
            is_Some (rna_lookup (nt_values t)
                       (Py.drop (Py.len NODE_TREE) (data_path path)))
        end
      else is_Some (rna_lookup (mat_values mat) (data_path path))
  end.

(** The [keyframe_insert] call that [apply_shader_keying_set] makes for a
    path entry. *)
Definition keyframe_of (frame : Z) (path : KS_Path) : Keyframe :=
  if Py.startswith (data_path path) NODE_TREE then
    {| kf_on := OnNodeTree (path_id path);
       kf_data_path := Py.drop (Py.len NODE_TREE) (data_path path);
       kf_index := None;
       kf_frame := frame |}
  else
    {| kf_on := OnMaterial (path_id path);
       kf_data_path := data_path path;
       kf_index := if 0 <? array_index path then Some (array_index path) else None;
       kf_frame := frame |}.

(** The live value of a path entry in a world. *)
Definition live_value (w : World) (path : KS_Path) : result value :=
  (resolve_live path w).1.

(** The preset record of a path entry whose live value is [v]. *)
Definition record_of (path : KS_Path) (v : value) : Entry :=
  {| e_material := path_id path; e_data_path := data_path path; e_value := v |}.

(** The entries [ps] resolve to the live values [vs]. *)
Definition live_values (w : World) (ps : list KS_Path) (vs : list value) : Prop :=
  Forall2 (fun path v => live_value w path = Return v) ps vs.

(** The preset that batch capture makes of a keying set, given the text of
    its records. *)
Definition preset_of (ks : KeyingSet) (js : string) : ShaderPresetItem :=
  {| name := KeyingSet_name ks +:+ "_preset"; values_json := js |}.

(** The entries of keying set [ks] resolve to the live values [cap.1], and
    their records serialize to the text [cap.2]. *)
Definition captures (w : World) (ks : KeyingSet) (cap : list value * string) : Prop :=
  live_values w (KeyingSet_paths ks) cap.1 /\
  json_dumps (zip_with record_of (KeyingSet_paths ks) cap.1) = Some cap.2.

(** A preset record whose value is the live value at its owner and path. *)
Definition entry_live (w : World) (entry : Entry) : Prop :=
  live_value w
    {| path_id := e_material entry; data_path := e_data_path entry;
       array_index := 0 |} = Return (e_value entry).

(** The key on which discovery tells path entries apart. *)
Definition key_of (path : KS_Path) : string * string * Z :=
  (path_id path, data_path path, array_index path).

(** The first statements of [extract_shader_keying_set]: the keying set of
    the given name, cleared or newly made, becomes the active one. *)
Definition extract_prepare (ks_name : string) : M nat :=
  ks <- keying_sets_get ks_name ;;
  ks <- match ks with
        | Some ks => paths_clear ks ;;; ret ks
        | None => keying_sets_new ks_name
        end ;;
  modify (set_keying_sets_active (Some ks)) ;;;
  ret ks.

(** The rest of [extract_shader_keying_set]. *)
Definition extract_rest (ks : nat) : M nat :=
  ids <- gets selected_ids ;;
  let mats :=
    match ids with
    | Some ((_ :: _) as ids) => omap is_Material ids
    | _ => []
    end in
  obs <- gets selected_objects ;;
  let mats :=
    match mats with
    | [] => slot_materials obs
    | _ :: _ => mats
    end in
  let mats := dict_values (dict_of ((fun m => (m, m)) <$> mats)) in
  for_fold mats ∅ (extract_material ks) ;;;
  gets (fun w => length (paths_of ks w)).

(** The world [w] with [added] after the paths of its keying set [ks]. *)
Definition with_added (ks : nat) (added : list KS_Path) (w : World) : World :=
  set_keying_sets (alter (add_paths added) ks (keying_sets w)) w.

(** The invariant of the discovery loops: [seen] holds the keys of the
    entries added so far, and no key was added twice. *)
Definition seen_inv (seen : gset (string * string * Z)) (added : list KS_Path) : Prop :=
  NoDup (key_of <$> added) /\ forall k, k ∈ seen <-> k ∈ key_of <$> added.

End Model.

Arguments FCurve : clear implicits.
Arguments Action : clear implicits.
Arguments AnimData : clear implicits.
Arguments NodeTree : clear implicits.
Arguments Material : clear implicits.
Arguments Entry : clear implicits.
Arguments JsonCodec : clear implicits.
Arguments World : clear implicits.
Arguments M : clear implicits.

Notation "x <- c1 ;; c2" := (bind c1 (fun x => c2))
  (at level 100, c1 at next level, right associativity).
Notation "c1 ;;; c2" := (bind c1 (fun _ => c2))
  (at level 100, right associativity).

(** * The remaining operators *)

Section Operators.

Context {value : Type} `{!JsonCodec value}.

Local Abbreviation World := (World value) (only parsing).
Local Abbreviation M := (M value) (only parsing).

(** [KS_OT_ApplyShader.execute] *)
Definition KS_OT_ApplyShader_execute : M OperatorStatus :=
  chosen <- gets ks_apply_shader_set ;;
  let name := Py.strip chosen in
  cnt <- apply_shader_keying_set name ;;
  if bool_decide (cnt = O) then
    report ERROR ("No keys from '" +:+ name +:+ "'") ;;;
    ret CANCELLED
  else
    report INFO ("Inserted " +:+ pretty cnt +:+ " keys from '" +:+ name +:+ "'") ;;;
    ret FINISHED.

(** [KS_OT_ApplyPreset.execute] *)
Definition KS_OT_ApplyPreset_execute : M OperatorStatus :=
  idx <- gets shader_preset_index ;;
  ok <- apply_shader_preset idx ;;
  if negb ok then
    report ERROR "Failed to apply preset" ;;;
    ret CANCELLED
  else
    idx' <- gets shader_preset_index ;;
    item <- gets (fun w => shader_presets w !! Z.to_nat idx') ;;
    match item with
    | None => raise IndexError
    | Some item =>
        report INFO ("Applied '" +:+ name item +:+ "'") ;;;
        ret FINISHED
    end.

(** The scene as the operators with a text field of their own see it: the
    world of the core functions and the two string properties
    [ks_new_shader_set] and [ks_preset_name]. *)
Record Session := {
  world : World;
  ks_new_shader_set : string;
  ks_preset_name : string
}.

Definition with_world (w : World) (s : Session) : Session :=
  {| world := w; ks_new_shader_set := ks_new_shader_set s;
     ks_preset_name := ks_preset_name s |}.

Definition set_ks_preset_name (x : string) (s : Session) : Session :=
  {| world := world s; ks_new_shader_set := ks_new_shader_set s;
     ks_preset_name := x |}.

(** A computation on the world, run in a session. *)
Definition run {A} (c : M A) (s : Session) : result A * Session :=
  let '(r, w) := c (world s) in (r, with_world w s).

(** [KS_OT_ExtractShader.execute] *)
Definition KS_OT_ExtractShader_execute (s : Session) : result OperatorStatus * Session :=
  let name := Py.strip (ks_new_shader_set s) in
  if negb (Py.truthy name) then
    run (report ERROR "Enter a Keying Set name" ;;; ret CANCELLED) s
  else
    run (cnt <- extract_shader_keying_set name ;;
         report INFO ("KS '" +:+ name +:+ "' has " +:+ pretty cnt +:+ " paths") ;;;
         ret FINISHED) s.

(** [KS_OT_SavePreset.execute]; [if err] is the truthiness of the message,
    and [item.name] on [None] raises. *)
Definition KS_OT_SavePreset_execute (s : Session) : result OperatorStatus * Session :=
  let sn := Py.strip (ks_preset_name s) in
  match run (save_current_preset sn) s with
  | (Raise e, s1) => (Raise e, s1)
  | (Return (item, err), s1) =>
      if match err with Some msg => Py.truthy msg | None => false end then
        run (report ERROR (default EmptyString err) ;;; ret CANCELLED) s1
      else
        let s2 := set_ks_preset_name EmptyString s1 in
        match item with
        | None => (Raise AttributeError, s2)
        | Some item =>
            run (report INFO ("Preset '" +:+ name item +:+ "' saved") ;;;
                 ret FINISHED) s2
        end
  end.

(** The candidate materials of discovery: the materials among the selected
    datablocks, or else those of the slots of the selected objects, one per
    name in the order of first occurrence. *)
Definition candidates (w : World) : list string :=
  let mats :=
    match selected_ids w with
    | Some ((_ :: _) as ids) => omap is_Material ids
    | _ => []
    end in
  let mats :=
    match mats with
    | [] => slot_materials (selected_objects w)
    | _ :: _ => mats
    end in
  dict_values (dict_of ((fun m => (m, m)) <$> mats)).

(** The entry that discovery makes of f-curve [fcu] of material [m]. *)
Definition entry_of (m : string) (fcu : FCurve value) : KS_Path :=
  {| path_id := m; data_path := NODE_TREE +:+ fcu_data_path fcu;
     array_index := fcu_array_index fcu |}.

(** The f-curves discovery walks for material [m]: those of the action of
    the animation data of its node tree. *)
Definition animated_fcurves (w : World) (m : string) : list (FCurve value) :=
  match materials w !! m with
  | Some mat =>
      match node_tree mat with
      | Some nt =>
          match animation_data nt with
          | Some ad =>
              match action ad with
              | Some act => fcurves act
              | None => []
              end
          | None => []
          end
      | None => []
      end
  | None => []
  end.

(** The active index points into the store, or is [-1], or is the [0] a
    store starts with. *)
Definition index_ok (w : World) : Prop :=
  -1 <= shader_preset_index w <=
    Z.max 0 (Z.of_nat (length (shader_presets w)) - 1).

(** A record of the socket kind: its path is under the node tree and ends
    in the value-socket suffix (the test of [apply_shader_preset]). *)
Definition socket_kind (entry : Entry value) : bool :=
  Py.startswith (e_data_path entry) NODE_TREE &&
  Py.endswith (e_data_path entry) DEFAULT_VALUE.

(** The value-record that restoring a record of the fallback kind commits:
    one on the owner, at the full path, when the owner is live and the path
    resolves on it; none otherwise. *)
Definition fallback_commit (w : World) (frame : Z) (entry : Entry value) : option Keyframe :=
  match materials w !! e_material entry with
  | None => None
  | Some mat =>
      match rna_lookup (mat_values mat) (e_data_path entry) with
      | None => None
      | Some _ =>
          Some {| kf_on := OnMaterial (e_material entry);
                  kf_data_path := e_data_path entry;
                  kf_index := None; kf_frame := frame |}
      end
  end.


(** The f-curve resolves on the node tree of material [m]. *)
Definition fcurve_resolves (w : World) (m : string) (fcu : FCurve value) : Prop :=
  match materials w !! m with
  | Some mat =>
      match node_tree mat with
      | Some t => is_Some (rna_lookup (nt_values t) (fcu_data_path fcu))
      | None => False
      end
  | None => False
  end.

(** A string of whitespace only (the empty string is one). *)
Fixpoint blank (s : string) : bool :=
  match s with
  | EmptyString => true
  | String c s' => Py.isspace c && blank s'
  end.

End Operators.

Arguments Session : clear implicits.

(** * A codec and sample worlds for integer values *)

(** The text [json.dumps] gives for a list of records with integer values,
    with its default separators, and a reader for that text. *)
Module JsonZ.

Definition quote : ascii := "034"%char.
Definition backslash : ascii := "092"%char.

Fixpoint escape (s : string) : string :=
  match s with
  | EmptyString => EmptyString
  | String c s' =>
      if bool_decide (c = quote \/ c = backslash)
      then String backslash (String c (escape s'))
      else String c (escape s')
  end.

Definition str (s : string) : string :=
  String quote (escape s +:+ String quote EmptyString).

Definition entry (e : Entry Z) : string :=
  "{" +:+ str "material" +:+ ": " +:+ str (e_material e) +:+ ", " +:+
  str "data_path" +:+ ": " +:+ str (e_data_path e) +:+ ", " +:+
  str "value" +:+ ": " +:+ pretty (e_value e) +:+ "}".

Fixpoint entries (l : list (Entry Z)) : string :=
  match l with
  | [] => EmptyString
  | [e] => entry e
  | e :: l' => entry e +:+ ", " +:+ entries l'
  end.

Definition dumps (l : list (Entry Z)) : string := "[" +:+ entries l +:+ "]".

(** [expect p s]: what follows the prefix [p] of [s]. *)
Definition expect (p s : string) : option string :=
  if Py.startswith s p then Some (Py.drop (Py.len p) s) else None.

(** A string literal, read from after its opening quote. *)
Fixpoint read_str (s : string) : option (string * string) :=
  match s with
  | EmptyString => None
  | String c s' =>
      if bool_decide (c = quote) then Some (EmptyString, s')
      else if bool_decide (c = backslash) then
        match s' with
        | EmptyString => None
        | String c' s'' =>
            match read_str s'' with
            | Some (r, rest) => Some (String c' r, rest)
            | None => None
            end
        end
      else
        match read_str s' with
        | Some (r, rest) => Some (String c r, rest)
        | None => None
        end
  end.

Fixpoint read_digits (acc : Z) (s : string) : Z * string :=
  match s with
  | EmptyString => (acc, s)
  | String c s' =>
      match Ascii.is_nat c with
      | Some d => read_digits (10 * acc + Z.of_nat d) s'
      | None => (acc, s)
      end
  end.

Definition read_nat (s : string) : option (Z * string) :=
  let '(n, rest) := read_digits 0 s in
  if bool_decide (Py.len rest < Py.len s)%nat then Some (n, rest) else None.

Definition read_int (s : string) : option (Z * string) :=
  match expect "-" s with
  | Some s' =>
      match read_nat s' with
      | Some (n, rest) => Some (- n, rest)
      | None => None
      end
  | None => read_nat s
  end.

Definition read_entry (s : string) : option (Entry Z * string) :=
  s ← expect ("{" +:+ str "material" +:+ ": " +:+ String quote EmptyString) s;
  '(m, s) ← read_str s;
  s ← expect (", " +:+ str "data_path" +:+ ": " +:+ String quote EmptyString) s;
  '(dp, s) ← read_str s;
  s ← expect (", " +:+ str "value" +:+ ": ") s;
  '(v, s) ← read_int s;
  s ← expect "}" s;
  Some ({| e_material := m; e_data_path := dp; e_value := v |}, s).

Fixpoint read_entries (fuel : nat) (s : string) : option (list (Entry Z)) :=
  match fuel with
  | O => None
  | S fuel' =>
      '(e, s) ← read_entry s;
      match expect ", " s with
      | Some s' => l ← read_entries fuel' s'; Some (e :: l)
      | None => if bool_decide (s = "]") then Some [e] else None
      end
  end.

Definition loads (s : string) : option (list (Entry Z)) :=
  s ← expect "[" s;
  if bool_decide (s = "]") then Some [] else read_entries (Py.len s) s.

End JsonZ.

#[export] Instance json_Z : JsonCodec Z :=
  {| json_dumps l := Some (JsonZ.dumps l); json_loads := JsonZ.loads |}.

(** A material with an animated node tree: two f-curves on the same
    channel of a socket and one without keyframes. *)
Definition socket0 : string := "nodes[0].inputs[0].default_value".
Definition socket1 : string := "nodes[1].inputs[2].default_value".

Definition tree_demo : NodeTree Z :=
  {| animation_data :=
       Some {| action :=
         Some {| fcurves :=
           [ {| fcu_data_path := socket0; fcu_array_index := 2;
                keyframe_points := [(1, 5)] |};
             {| fcu_data_path := socket0; fcu_array_index := 2;
                keyframe_points := [(1, 5); (9, 6)] |};
             {| fcu_data_path := socket1; fcu_array_index := 0;
                keyframe_points := [] |} ] |} |};
     nt_values := {[ socket0 := 5; socket1 := 7 ]} |}.

Definition mat_demo : Material Z :=
  {| node_tree := Some tree_demo; mat_values := {[ "diffuse_color" := 3 ]} |}.

Definition path_socket0 : KS_Path :=
  {| path_id := "Mat"; data_path := NODE_TREE +:+ socket0; array_index := 2 |}.
Definition path_color : KS_Path :=
  {| path_id := "Mat"; data_path := "diffuse_color"; array_index := 1 |}.
Definition path_socket1 : KS_Path :=
  {| path_id := "Mat"; data_path := NODE_TREE +:+ socket1; array_index := 0 |}.

(** A scene with three keying sets, of 0, 2 and 1 entries; the keying set
    chosen for capture is the second. *)
Definition w_demo : World Z :=
  {| materials := {[ "Mat" := mat_demo ]};
     selected_ids := None;
     selected_objects := [ {| material_slots := [Some "Mat"; None; Some "Mat"] |} ];
     frame_current := 12;
     keying_sets :=
       [ {| KeyingSet_name := "Empty"; KeyingSet_paths := [] |};
         {| KeyingSet_name := "KS"; KeyingSet_paths := [path_socket0; path_color] |};
         {| KeyingSet_name := "One"; KeyingSet_paths := [path_socket1] |} ];
     keying_sets_active := None;
     ks_apply_shader_set := " KS ";
     shader_presets := [];
     shader_preset_index := 0;
     keyframes := [];
     reports := [] |}.

(** The same scene after the material was deleted: the entries of the
    keying sets refer to an owner that is gone. *)
Definition w_stale : World Z := set_materials ∅ w_demo.

(** The records of the keying set [KS] in [w_demo], and their text. *)
Definition data_demo : list (Entry Z) :=
  [ {| e_material := "Mat"; e_data_path := NODE_TREE +:+ socket0; e_value := 5 |};
    {| e_material := "Mat"; e_data_path := "diffuse_color"; e_value := 3 |} ].

Definition js_demo : string := JsonZ.dumps data_demo.

(** A store of two presets, the second active, in a scene without keying
    sets. *)
Definition w_two : World Z :=
  set_keying_sets []
    (set_shader_preset_index 1
       (set_shader_presets
          [ {| name := "A"; values_json := js_demo |};
            {| name := "B"; values_json := JsonZ.dumps [] |} ] w_demo)).

(** A preset whose first record names a socket that is not in the node tree
    (its node was removed after the capture) and whose second record is of
    the fallback kind. *)
Definition data_gone : list (Entry Z) :=
  [ {| e_material := "Mat";
       e_data_path := NODE_TREE +:+ "nodes[9].inputs[0].default_value";
       e_value := 1 |};
    {| e_material := "Mat"; e_data_path := "diffuse_color"; e_value := 3 |} ].

Definition w_gone : World Z :=
  set_shader_presets [ {| name := "P"; values_json := JsonZ.dumps data_gone |} ] w_demo.

(** What the three keying sets of [w_demo] resolve and serialize to. *)
Definition caps_demo : list (list Z * string) :=
  [ ([], JsonZ.dumps []);
    ([5; 3], js_demo);
    ([7], JsonZ.dumps
            [{| e_material := "Mat"; e_data_path := NODE_TREE +:+ socket1;
                e_value := 7 |}]) ].

(** An entry for a socket that is not in the node tree. *)
Definition path_gone : KS_Path :=
  {| path_id := "Mat";
     data_path := NODE_TREE +:+ "nodes[9].inputs[0].default_value";
     array_index := 0 |}.

Definition ks_empty : KeyingSet := {| KeyingSet_name := "Empty"; KeyingSet_paths := [] |}.
Definition ks_two : KeyingSet :=
  {| KeyingSet_name := "KS"; KeyingSet_paths := [path_socket0; path_color] |}.
Definition ks_mixed : KeyingSet :=
  {| KeyingSet_name := "Mixed";
     KeyingSet_paths := [path_socket0; path_gone; path_color] |}.
Definition ks_one : KeyingSet :=
  {| KeyingSet_name := "One"; KeyingSet_paths := [path_socket1] |}.

(** The scene of [w_demo] with a third keying set whose second entry does
    not resolve, chosen for replay and capture. *)
Definition w_mixed : World Z :=
  {| materials := materials w_demo;
     selected_ids := Some [ID_Other "Cube"; ID_Material "Mat"];
     selected_objects := [];
     frame_current := 12;
     keying_sets := [ks_empty; ks_two] ++ ks_mixed :: [ks_one];
     keying_sets_active := None;
     ks_apply_shader_set := "Mixed";
     shader_presets := [];
     shader_preset_index := 0;
     keyframes := [];
     reports := [] |}.

(** A preset without text, as a failed save leaves it. *)
Definition w_junk : World Z :=
  set_shader_presets [ {| name := "P"; values_json := EmptyString |} ] w_demo.

(** A preset with one record of the socket kind, for the socket [socket0]
    of [Mat], whose value is 5 in the scene. *)
Definition base0 : string := "nodes[0].inputs[0]".

Definition data_sock : list (Entry Z) :=
  [ {| e_material := "Mat"; e_data_path := NODE_TREE +:+ base0 +:+ DEFAULT_VALUE;
       e_value := 9 |} ].

Definition w_sock : World Z :=
  set_shader_presets [ {| name := "S"; values_json := JsonZ.dumps data_sock |} ] w_demo.

(** A preset with a record of the fallback kind that the owner can key, one
    that it cannot, and a record of the socket kind whose owner is gone. *)
Definition data_fallback : list (Entry Z) :=
  [ {| e_material := "Mat"; e_data_path := "diffuse_color"; e_value := 8 |};
    {| e_material := "Mat"; e_data_path := "no_such_property"; e_value := 1 |};
    {| e_material := "Gone"; e_data_path := NODE_TREE +:+ socket0; e_value := 2 |} ].

Definition w_fallback : World Z :=
  set_shader_presets
    [ {| name := "F"; values_json := JsonZ.dumps data_fallback |} ] w_demo.

(** Sessions on [w_demo]: a preset name with whitespace around it, and text
    fields of whitespace only. *)
Definition s_demo : Session Z :=
  {| world := w_demo; ks_new_shader_set := " New "; ks_preset_name := " P " |}.

Definition s_blank : Session Z :=
  {| world := w_demo; ks_new_shader_set := "  "; ks_preset_name := "   " |}.

(** Values some of which do not serialize: the arrays value resolution
    returns for a colour or a vector socket. *)
Inductive pyvalue : Type :=
  | PyInt (n : Z)
  | PyArray (l : list Z).

Definition entry_int (e : Entry pyvalue) : option (Entry Z) :=
  match e_value e with
  | PyInt n =>
      Some {| e_material := e_material e; e_data_path := e_data_path e; e_value := n |}
  | PyArray _ => None
  end.

Definition entry_py (e : Entry Z) : Entry pyvalue :=
  {| e_material := e_material e; e_data_path := e_data_path e;
     e_value := PyInt (e_value e) |}.

Fixpoint entries_int (l : list (Entry pyvalue)) : option (list (Entry Z)) :=
  match l with
  | [] => Some []
  | e :: l' =>
      match entry_int e, entries_int l' with
      | Some e', Some r => Some (e' :: r)
      | _, _ => None
      end
  end.

#[export] Instance json_py : JsonCodec pyvalue :=
  {| json_dumps l :=
       match entries_int l with
       | Some ints => Some (JsonZ.dumps ints)
       | None => None
       end;
     json_loads s :=
       match JsonZ.loads s with
       | Some es => Some (map entry_py es)
       | None => None
       end |}.

(** A scene whose keying set [KS] has one entry, for a colour socket. *)
Definition w_color : World pyvalue :=
  {| materials :=
       {[ "Mat" := {| node_tree :=
                        Some {| animation_data := None;
                                nt_values := {[ socket0 := PyArray [1; 1; 1; 1] ]} |};
                      mat_values := ∅ |} ]};
     selected_ids := None;
     selected_objects := [];
     frame_current := 1;
     keying_sets := [ {| KeyingSet_name := "KS"; KeyingSet_paths := [path_socket0] |} ];
     keying_sets_active := None;
     ks_apply_shader_set := "KS";
     shader_presets := [];
     shader_preset_index := 0;
     keyframes := [];
     reports := [] |}.

(** * Verification *)

Section Verification.

Context {value : Type} `{!JsonCodec value}.

Local Abbreviation World := (World value) (only parsing).
Local Abbreviation M := (M value) (only parsing).
Local Abbreviation Entry := (Entry value) (only parsing).
Local Abbreviation Material := (Material value) (only parsing).
Local Abbreviation NodeTree := (NodeTree value) (only parsing).
Local Abbreviation FCurve := (FCurve value) (only parsing).
Local Abbreviation Session := (Session value) (only parsing).


(** ** Strings *)

Lemma take_drop (n : nat) (s : string) : Py.take n s +:+ Py.drop n s = s.
Proof.
  revert s; induction n as [|n IH]; intros [|c s]; try reflexivity.
  change (String c (Py.take n s +:+ Py.drop n s) = String c s).
  by rewrite IH.
Qed.

Lemma len_drop (n : nat) (s : string) : Py.len (Py.drop n s) = (Py.len s - n)%nat.
Proof.
  unfold Py.len.
  revert s; induction n as [|n IH]; intros [|c s]; simpl; try lia.
  apply IH.
Qed.

Lemma drop_drop (a b : nat) (s : string) :
  Py.drop a (Py.drop b s) = Py.drop (b + a) s.
Proof.
  revert s; induction b as [|b IH]; intros s; simpl; [done|].
  destruct s as [|c s]; [by destruct a | apply IH].
Qed.

Lemma append_assoc (a b c : string) : (a +:+ b) +:+ c = a +:+ (b +:+ c).
Proof.
  induction a as [|x a IH]; [done|].
  change (String x ((a +:+ b) +:+ c) = String x (a +:+ (b +:+ c))).
  by rewrite IH.
Qed.

Lemma startswith_app (p x : string) : Py.startswith (p +:+ x) p = true.
Proof.
  apply bool_decide_eq_true_2. induction p as [|c p IH]; [done|].
  change (String c (Py.take (Py.len p) (p +:+ x)) = String c p).
  by rewrite IH.
Qed.

(** The struct that holds a stored attribute is there. *)
Lemma rna_struct_attr (vals : gmap string value) (base attr : string) (v : value) :
  base <> EmptyString ->
  vals !! attr_path base attr = Some v ->
  rna_struct vals base = true.
Proof.
  intros Hbase Hv. destruct base as [|c base]; [done|].
  apply bool_decide_eq_true_2, Exists_exists.
  exists (attr_path (String c base) attr, v). split.
  - by apply elem_of_map_to_list.
  - unfold attr_path. rewrite <- append_assoc. apply startswith_app.
Qed.

Lemma take_nonempty (n : nat) (s : string) :
  Py.take n s <> EmptyString -> (0 < n)%nat.
Proof. destruct n; [done | lia]. Qed.

(** The socket path the restore writes to is the path the capture read,
    whenever the struct path [base] it computes is not empty. *)
Lemma default_value_path (dp_full : string) :
  Py.endswith dp_full DEFAULT_VALUE = true ->
  let tail := Py.drop (Py.len NODE_TREE) dp_full in
  let base := Py.drop_end (Py.len DEFAULT_VALUE) tail in
  base <> EmptyString ->
  attr_path base "default_value" = tail.
Proof.
  intros Hend tail base Hbase.
  apply bool_decide_eq_true_1 in Hend.
  apply take_nonempty in Hbase.
  assert (Hlen : Py.len tail = (Py.len dp_full - Py.len NODE_TREE)%nat)
    by apply len_drop.
  assert (Hsuf : Py.drop (Py.len tail - Py.len DEFAULT_VALUE) tail = DEFAULT_VALUE).
  { etrans; [|exact Hend]. unfold tail at 2. rewrite drop_drop. f_equal.
    unfold Py.drop_end in Hbase. lia. }
  unfold attr_path, base, Py.drop_end.
  change ("." +:+ "default_value") with DEFAULT_VALUE.
  rewrite <- Hsuf at 2. apply take_drop.
Qed.

(** ** The monad *)

Lemma for_fold_app {A S} (l1 l2 : list A) (s : S) (body : S -> A -> M S) (w : World) :
  for_fold (l1 ++ l2) s body w =
  (s' <- for_fold l1 s body ;; for_fold l2 s' body) w.
Proof.
  revert s w; induction l1 as [|a l1 IH]; intros s w; simpl; [done|].
  unfold bind. destruct (body s a w) as [[s'|e] w']; [|done].
  rewrite IH. reflexivity.
Qed.

(** A loop invariant: [I] holds of the locals and the world after every
    completed iteration, [E] of the world when an iteration raises. *)
Lemma for_fold_inv {A S} (I : S -> World -> Prop) (E : World -> Prop)
    (l : list A) (body : S -> A -> M S) (s : S) (w : World) :
  I s w ->
  (forall s w a, a ∈ l -> I s w ->
     match body s a w with
     | (Return s', w') => I s' w'
     | (Raise _, w') => E w'
     end) ->
  match for_fold l s body w with
  | (Return s', w') => I s' w'
  | (Raise _, w') => E w'
  end.
Proof.
  revert s w; induction l as [|a l IH]; intros s w HI Hbody; simpl; [done|].
  unfold bind. pose proof (Hbody s w a (list_elem_of_here _ _) HI) as Ha.
  destruct (body s a w) as [[s'|e] w']; [|done].
  apply IH; [done|]. intros s0 w0 a0 Hin. apply Hbody. by right.
Qed.

(** ** Preset restore: the index guard *)

(** C7: for an index that is negative, or at least the size of the preset
    store, [apply_shader_preset] returns [False] and leaves the whole world
    as it was: no value is written, no value-record is committed, and the
    preset store and its active index are unchanged. *)
Theorem apply_shader_preset_out_of_range (w : World) (idx : Z) :
  idx < 0 \/ Z.of_nat (length (shader_presets w)) <= idx ->
  apply_shader_preset idx w = (Return false, w).
Proof.
  intros Hidx. unfold apply_shader_preset, bind, gets, ret.
  destruct (idx <? 0) eqn:Hneg; [done|].
  destruct (Z.of_nat (length (shader_presets w)) <=? idx) eqn:Hge; [done|].
  lia.
Qed.

(** ** Value capture: validation *)

(** C5: [save_current_preset] first looks the chosen keying set up and,
    when there is none, fails with the message of the missing set whatever
    the preset name is; with the set found and an empty preset name it fails
    with the message of the missing name; in both cases the world, and so
    the preset store and its active index, is unchanged. *)
Theorem save_current_preset_validation (w : World) (preset_name : string) :
  (keying_sets_find (Py.strip (ks_apply_shader_set w)) (keying_sets w) = None ->
   save_current_preset preset_name w =
     (Return (None, Some "Select a valid Keying Set first"), w)) /\
  (is_Some (keying_sets_find (Py.strip (ks_apply_shader_set w)) (keying_sets w)) ->
   preset_name = EmptyString ->
   save_current_preset preset_name w =
     (Return (None, Some "Enter a preset name"), w)).
Proof.
  unfold save_current_preset, keying_sets_get, bind, gets, ret. split.
  - intros ->. reflexivity.
  - intros [ks ->] ->. reflexivity.
Qed.

(** ** Removing a preset *)

(** C8: with the active index [i] inside the store, the operator removes
    the preset at [i], so the store shrinks by one, and sets the active index
    to [min i (newSize - 1)]; that is [-1] exactly when the store became
    empty, and otherwise lies in [[0, newSize - 1]]. *)
Theorem remove_preset_reclamps (w : World) :
  0 <= shader_preset_index w < Z.of_nat (length (shader_presets w)) ->
  exists w',
    KS_OT_RemovePreset_execute w = (Return FINISHED, w') /\
    shader_presets w' = delete (Z.to_nat (shader_preset_index w)) (shader_presets w) /\
    S (length (shader_presets w')) = length (shader_presets w) /\
    shader_preset_index w' =
      Z.min (shader_preset_index w) (Z.of_nat (length (shader_presets w')) - 1) /\
    (shader_preset_index w' = -1 <-> shader_presets w' = []) /\
    (shader_preset_index w' = -1 \/
     0 <= shader_preset_index w' <= Z.of_nat (length (shader_presets w')) - 1).
Proof.
  intros Hi. unfold KS_OT_RemovePreset_execute, bind, gets, modify, ret.
  destruct (shader_preset_index w <? 0) eqn:Hneg; [lia|].
  destruct (Z.of_nat (length (shader_presets w)) <=? shader_preset_index w) eqn:Hge;
    [lia|].
  simpl. eexists; split; [reflexivity|]. simpl.
  set (i := shader_preset_index w) in *. set (l := shader_presets w) in *.
  assert (Hlen : S (length (delete (Z.to_nat i) l)) = length l).
  { rewrite length_delete; [lia|]. apply lookup_lt_is_Some_2. lia. }
  repeat split; try done; try lia.
  - intros Hm. destruct (delete (Z.to_nat i) l); [done|]. simpl in *. lia.
  - intros ->. simpl. lia.
Qed.

(** ** Batch capture *)

(** C10: with no keying set in the scene, [KS_OT_BatchCollect.execute]
    appends nothing and still overwrites the active index with the store
    size minus one: [-1] for an empty store, the position of the last preset
    that was already there otherwise. *)
Theorem batch_collect_no_sets (w : World) :
  keying_sets w = [] ->
  exists w',
    KS_OT_BatchCollect_execute w = (Return FINISHED, w') /\
    shader_presets w' = shader_presets w /\
    shader_preset_index w' = Z.of_nat (length (shader_presets w)) - 1 /\
    (shader_presets w = [] -> shader_preset_index w' = -1) /\
    (forall p, last (shader_presets w) = Some p ->
       shader_presets w' !! Z.to_nat (shader_preset_index w') = Some p) /\
    reports w' = reports w ++ [(INFO, "Collected 0 presets")].
Proof.
  intros Hks. unfold KS_OT_BatchCollect_execute, bind, gets, modify, report, ret.
  rewrite Hks. simpl. eexists; split; [reflexivity|]. simpl.
  repeat split.
  - intros ->. reflexivity.
  - intros p Hp. rewrite last_lookup in Hp. rewrite <- Hp. f_equal. lia.
Qed.

(** ** Replay of a keying set *)

(** Symbolic execution of monadic code: unfold the operations, then use
    the equations at hand for the lookups a [match] is stuck on. *)
Ltac mred :=
  cbv beta iota delta
      [bind ret raise gets modify try_pass attr_of commit deref deref_nt
       Material_node_tree Material_path_resolve NodeTree_path_resolve
       NodeTree_path_resolve_struct Material_keyframe_insert
       NodeTree_keyframe_insert Socket_setattr Socket_keyframe_insert
       keying_sets_get keying_sets_new paths_clear paths_add
       shader_presets_add item_set_name item_set_values_json dumps loads
       report].

Ltac mrun :=
  mred;
  repeat (progress
    (repeat match goal with
            | H : ?lhs = _ |- context [match ?lhs with _ => _ end] => rewrite H
            end; mred)).

Lemma apply_path_keyable (frame : Z) (count : nat) (path : KS_Path) (w : World) :
  keyable w path ->
  apply_path frame count path w =
    (Return (count + 1)%nat,
     set_keyframes (keyframes w ++ [keyframe_of frame path]) w).
Proof.
  unfold keyable, apply_path, keyframe_of.
  destruct (materials w !! path_id path) as [mat|] eqn:Hm; [|done].
  destruct (Py.startswith (data_path path) NODE_TREE).
  - destruct (node_tree mat) as [t|] eqn:Ht; [|done].
    intros [v Hv]. mrun. reflexivity.
  - intros [v Hv]. destruct (0 <? array_index path); mrun; reflexivity.
Qed.

(** The loop stamps every record with the frame it is given, whatever the
    time cursor of the world it runs in is. *)
Lemma apply_paths_keyable (frame : Z) (ps : list KS_Path) (count : nat) (w : World) :
  Forall (keyable w) ps ->
  for_fold ps count (apply_path frame) w =
    (Return (count + length ps)%nat,
     set_keyframes (keyframes w ++ (keyframe_of frame <$> ps)) w).
Proof.
  revert count w; induction ps as [|path ps IH]; intros count w Hps; simpl.
  - unfold ret. rewrite Nat.add_0_r, app_nil_r. by destruct w.
  - inversion Hps as [|? ? Hpath Hrest]; subst.
    unfold bind. rewrite (apply_path_keyable _ _ _ _ Hpath).
    rewrite IH by exact Hrest.
    unfold set_keyframes; simpl. rewrite <- app_assoc. simpl.
    do 2 f_equal. lia.
Qed.

(** C3, amended: when every entry of the keying set can take a
    value-record, [apply_shader_keying_set] returns the number [N] of entries
    and commits exactly [N] value-records, one per entry in order, all at the
    time cursor read at the start of the call, whichever owners the entries
    name.  Nothing else in the world changes. *)
Theorem apply_shader_keying_set_commits (w : World) (ks_name : string) (ks : nat) :
  keying_sets_find ks_name (keying_sets w) = Some ks ->
  Forall (keyable w) (paths_of ks w) ->
  exists new,
    apply_shader_keying_set ks_name w =
      (Return (length (paths_of ks w)), set_keyframes (keyframes w ++ new) w) /\
    new = (keyframe_of (frame_current w) <$> paths_of ks w) /\
    length new = length (paths_of ks w) /\
    Forall (fun kf => kf_frame kf = frame_current w) new.
Proof.
  intros Hks Hps. eexists; split; [|split; [reflexivity|split]].
  - unfold apply_shader_keying_set. mrun.
    rewrite apply_paths_keyable by exact Hps. reflexivity.
  - apply length_fmap.
  - apply Forall_fmap, Forall_forall. intros path _.
    unfold compose, keyframe_of.
    by destruct (Py.startswith (data_path path) NODE_TREE).
Qed.

(** ** Value capture *)

Lemma resolve_live_pure (path : KS_Path) (w : World) :
  (resolve_live path w).2 = w.
Proof.
  unfold resolve_live. destruct (Py.startswith (data_path path) NODE_TREE); mred.
  - destruct (materials w !! path_id path) as [mat|] eqn:Hm; [|done].
    destruct (node_tree mat) as [t|] eqn:Ht; [|done].
    mrun. by destruct (rna_lookup _ _).
  - destruct (materials w !! path_id path) as [mat|]; [|done].
    by destruct (rna_lookup _ _).
Qed.

Lemma resolve_live_eq (path : KS_Path) (w : World) :
  resolve_live path w = (live_value w path, w).
Proof.
  unfold live_value. rewrite <- (resolve_live_pure path w) at 3.
  by destruct (resolve_live path w).
Qed.

(** Value resolution reads the materials only. *)
Lemma live_value_materials (w1 w2 : World) (path : KS_Path) :
  materials w1 = materials w2 -> live_value w1 path = live_value w2 path.
Proof.
  intros Hm. unfold live_value, resolve_live.
  destruct (Py.startswith (data_path path) NODE_TREE); mred; rewrite Hm.
  - destruct (materials w2 !! path_id path) as [mat|]; [|done].
    destruct (node_tree mat) as [t|] eqn:Ht; [|done].
    mred. rewrite Hm. destruct (materials w2 !! path_id path) as [mat'|]; [|done].
    destruct (node_tree mat'); [|done]. by destruct (rna_lookup _ _).
  - destruct (materials w2 !! path_id path) as [mat|]; [|done].
    by destruct (rna_lookup _ _).
Qed.

(** The capture loop, on entries that resolve, collects their records and
    changes nothing. *)
Lemma capture_paths_live (w : World) (ps : list KS_Path) (vs : list value)
    (data : list Entry) :
  live_values w ps vs ->
  for_fold ps data capture_path w =
    (Return (data ++ zip_with record_of ps vs), w).
Proof.
  intros Hlive. revert data.
  induction Hlive as [|path v ps vs Hv _ IH]; intros data; simpl.
  - unfold ret. by rewrite app_nil_r.
  - unfold bind at 1. unfold capture_path at 1. unfold bind at 1.
    rewrite resolve_live_eq, Hv. mred. rewrite IH, <- app_assoc. reflexivity.
Qed.

Lemma alter_last {A} (f : A -> A) (l : list A) (x : A) :
  alter f (length l) (l ++ [x]) = l ++ [f x].
Proof.
  replace (length l) with (length l + 0)%nat by lia. by rewrite alter_app_r.
Qed.

(** ** Batch capture over the keying sets of the scene *)

Lemma batch_collect_set_captures (w : World) (cnt : nat) (ks : KeyingSet)
    (cap : list value * string) :
  captures w ks cap ->
  batch_collect_set cnt ks w =
    (Return (cnt + 1)%nat,
     set_shader_presets (shader_presets w ++ [preset_of ks cap.2]) w).
Proof.
  intros [Hlive Hjs]. unfold batch_collect_set.
  unfold bind at 1. rewrite (capture_paths_live _ _ _ _ Hlive).
  rewrite app_nil_l. mrun. unfold set_shader_presets; simpl.
  by rewrite !alter_last.
Qed.

Lemma batch_collect_sets_captures (sets : list KeyingSet)
    (caps : list (list value * string)) (cnt : nat) (w : World) :
  Forall2 (captures w) sets caps ->
  for_fold sets cnt batch_collect_set w =
    (Return (cnt + length sets)%nat,
     set_shader_presets (shader_presets w ++ zip_with preset_of sets caps.*2) w).
Proof.
  intros Hcaps. revert caps cnt w Hcaps.
  induction sets as [|ks sets IH]; intros caps cnt w Hcaps;
    inversion Hcaps as [|? cap ? caps' Hcap Hrest]; subst; simpl.
  - unfold ret. rewrite Nat.add_0_r, app_nil_r. by destruct w.
  - unfold bind. rewrite (batch_collect_set_captures _ _ _ _ Hcap).
    rewrite (IH caps').
    + unfold set_shader_presets; simpl. rewrite <- app_assoc. simpl.
      do 2 f_equal. lia.
    + eapply Forall2_impl; [exact Hrest|]. intros ks' cap' [Hl Hj]. split; [|done].
      eapply Forall2_impl; [exact Hl|]. intros path v <-.
      by apply live_value_materials.
Qed.

(** C9, amended: when the entries of every keying set of the scene resolve
    to live values whose records serialize, [KS_OT_BatchCollect.execute]
    appends one preset per keying set, in order and also for the empty sets,
    named after the set with the suffix [_preset] and holding the text of the
    set's [(owner name, full path, value)] records; it reports the number [K]
    of keying sets and sets the active index to the last position of the
    store. *)
Theorem batch_collect_all_sets (w : World) (caps : list (list value * string)) :
  Forall2 (captures w) (keying_sets w) caps ->
  exists w',
    KS_OT_BatchCollect_execute w = (Return FINISHED, w') /\
    shader_presets w' =
      shader_presets w ++ zip_with preset_of (keying_sets w) caps.*2 /\
    length (shader_presets w') =
      (length (shader_presets w) + length (keying_sets w))%nat /\
    shader_preset_index w' = Z.of_nat (length (shader_presets w')) - 1 /\
    reports w' =
      reports w ++
        [(INFO, "Collected " +:+ pretty (length (keying_sets w)) +:+ " presets")] /\
    materials w' = materials w /\ keying_sets w' = keying_sets w /\
    keyframes w' = keyframes w.
Proof.
  intros Hcaps. unfold KS_OT_BatchCollect_execute.
  eexists; split.
  { mred. rewrite (batch_collect_sets_captures _ _ _ _ Hcaps). mred.
    reflexivity. }
  simpl. repeat split.
  rewrite length_app, length_zip_with, length_fmap.
  apply Forall2_length in Hcaps. lia.
Qed.

(** ** Capture, then restore *)

Lemma set_materials_same (w : World) : set_materials (materials w) w = w.
Proof. by destruct w. Qed.

(** Writing to a property the value it has changes nothing. *)
Lemma write_same (w : World) (nt p : string) (val : value)
    (mat : Material) (t : NodeTree) :
  materials w !! nt = Some mat ->
  node_tree mat = Some t ->
  nt_values t !! p = Some val ->
  set_materials
    (<[nt := {| node_tree :=
                  Some {| animation_data := animation_data t;
                          nt_values := <[p := val]> (nt_values t) |};
                mat_values := mat_values mat |}]> (materials w)) w = w.
Proof.
  intros Hm Ht Hv.
  rewrite (insert_id (nt_values t)) by exact Hv.
  replace {| animation_data := animation_data t; nt_values := nt_values t |}
    with t by (by destruct t).
  rewrite <- Ht.
  replace {| node_tree := node_tree mat; mat_values := mat_values mat |}
    with mat by (by destruct mat).
  rewrite insert_id by exact Hm. apply set_materials_same.
Qed.

Lemma record_of_live (w : World) (path : KS_Path) (v : value) :
  live_value w path = Return v -> entry_live w (record_of path v).
Proof. intros Hv. unfold entry_live. by destruct path. Qed.

(** Restoring a record that holds the live value leaves the materials as
    they are, whether the record is restored, skipped or raises. *)
Lemma apply_entry_live (frame : Z) (entry : Entry) (w : World) :
  entry_live w entry ->
  materials (apply_entry frame tt entry w).2 = materials w.
Proof.
  unfold entry_live, live_value, resolve_live, apply_entry. simpl.
  intros Hlive. mred.
  destruct (materials w !! e_material entry) as [mat|] eqn:Hm; [|done].
  destruct (Py.startswith (e_data_path entry) NODE_TREE) eqn:Hstart; simpl.
  - destruct (Py.endswith (e_data_path entry) DEFAULT_VALUE) eqn:Hend.
    + revert Hlive. mrun.
      destruct (node_tree mat) as [t|] eqn:Ht; [|done]. mrun.
      destruct (rna_lookup (nt_values t)
                  (Py.drop (Py.len NODE_TREE) (e_data_path entry)))
        as [v|] eqn:Hv; [|done].
      intros [= ->].
      pose proof (default_value_path _ Hend) as Hpath. simpl in Hpath.
      set (base := Py.drop_end (Py.len DEFAULT_VALUE)
                     (Py.drop (Py.len NODE_TREE) (e_data_path entry))) in *.
      destruct (rna_struct (nt_values t) base) eqn:Hstruct; [|done].
      assert (Hbase : base <> EmptyString) by (by destruct base).
      specialize (Hpath Hbase).
      assert (Hval : nt_values t !! attr_path base "default_value"
                     = Some (e_value entry)).
      { rewrite Hpath. unfold rna_lookup in Hv. by destruct (Py.drop _ _). }
      mrun. rewrite (write_same w _ _ _ _ _ Hm Ht Hval). mrun. done.
    + mrun. by destruct (rna_lookup (mat_values mat) (e_data_path entry)).
  - mrun. by destruct (rna_lookup (mat_values mat) (e_data_path entry)).
Qed.

Lemma apply_entries_live (frame : Z) (entries : list Entry) (w : World) :
  Forall (entry_live w) entries ->
  materials (for_fold entries tt (apply_entry frame) w).2 = materials w.
Proof.
  intros Hlive.
  pose proof (for_fold_inv
    (fun _ w' => materials w' = materials w)
    (fun w' => materials w' = materials w)
    entries (apply_entry frame) tt w eq_refl) as Hinv.
  destruct (for_fold entries tt (apply_entry frame) w) as [[[]|e] w'];
    apply Hinv; clear Hinv.
  all: intros [] w0 entry Hin Hw0;
    assert (Hl : entry_live w0 entry)
      by (unfold entry_live;
          rewrite (live_value_materials w0 w) by done;
          by eapply Forall_forall in Hlive);
    pose proof (apply_entry_live frame entry w0 Hl) as Hstep;
    destruct (apply_entry frame tt entry w0) as [[[]|e'] w1]; simpl in Hstep;
    congruence.
Qed.

(** The restore loop does not touch the keying sets. *)
Lemma apply_entry_keying_sets (frame : Z) (entry : Entry) (w : World) :
  keying_sets (apply_entry frame tt entry w).2 = keying_sets w.
Proof.
  unfold apply_entry. mred.
  repeat (case_match; simplify_eq; mred; simpl; try done).
Qed.

Lemma apply_entries_keying_sets (frame : Z) (entries : list Entry) (w : World) :
  keying_sets (for_fold entries tt (apply_entry frame) w).2 = keying_sets w.
Proof.
  revert w; induction entries as [|entry entries IH]; intros w; simpl; [done|].
  unfold bind. pose proof (apply_entry_keying_sets frame entry w) as Hstep.
  destruct (apply_entry frame tt entry w) as [[[]|e] w1]; simpl in *; [|done].
  by rewrite IH.
Qed.

(** Capture on a keying set whose entries resolve and serialize: the preset
    is appended with the given name and the text of the records, and the
    active index is set to its position. *)
Lemma save_current_preset_live (w : World) (preset_name : string) (ks : nat)
    (vs : list value) (js : string) :
  keying_sets_find (Py.strip (ks_apply_shader_set w)) (keying_sets w) = Some ks ->
  preset_name <> EmptyString ->
  live_values w (paths_of ks w) vs ->
  json_dumps (zip_with record_of (paths_of ks w) vs) = Some js ->
  save_current_preset preset_name w =
    (Return (Some {| name := preset_name; values_json := js |}, None),
     set_shader_preset_index
       (Z.of_nat (length (shader_presets w ++
                            [{| name := preset_name; values_json := js |}])) - 1)
       (set_shader_presets
          (shader_presets w ++ [{| name := preset_name; values_json := js |}]) w)).
Proof.
  intros Hks Hname Hlive Hjs. unfold save_current_preset. mrun.
  destruct preset_name as [|c preset_name]; [done|]. simpl.
  mred. rewrite (capture_paths_live _ _ _ _ Hlive), app_nil_l. mrun.
  unfold set_shader_presets, set_shader_preset_index; simpl.
  rewrite !alter_last. simpl.
  rewrite lookup_app_r, Nat.sub_diag by done. reflexivity.
Qed.

(** The world a restore leaves is the one its loop over the records
    leaves. *)
Lemma apply_shader_preset_state (w : World) (idx : Z) (item : ShaderPresetItem)
    (entries : list Entry) :
  0 <= idx ->
  shader_presets w !! Z.to_nat idx = Some item ->
  json_loads (values_json item) = Some entries ->
  (apply_shader_preset idx w).2 =
  (for_fold entries tt (apply_entry (frame_current w)) w).2.
Proof.
  intros Hidx Hitem Hloads. unfold apply_shader_preset. mred.
  apply lookup_lt_Some in Hitem as Hlt.
  destruct (idx <? 0) eqn:Hneg; [lia|].
  destruct (Z.of_nat (length (shader_presets w)) <=? idx) eqn:Hge; [lia|].
  simpl. mrun.
  by destruct (for_fold entries tt (apply_entry (frame_current w)) w) as [[[]|e] w'].
Qed.

(** C1: for a keying set whose entries resolve to the live values [vs]
    (and whose records the codec serializes and reads back),
    [save_current_preset] stores a preset at the active index, and applying
    that preset right away leaves every captured path with its value of
    [vs]: this holds for the records restored through the socket case
    (a path under the node tree that ends in [.default_value]) and for those
    of the fallback case alike. *)
Theorem capture_restore_roundtrip (w : World) (preset_name : string) (ks : nat)
    (vs : list value) (js : string) :
  keying_sets_find (Py.strip (ks_apply_shader_set w)) (keying_sets w) = Some ks ->
  preset_name <> EmptyString ->
  live_values w (paths_of ks w) vs ->
  json_dumps (zip_with record_of (paths_of ks w) vs) = Some js ->
  json_loads js = Some (zip_with record_of (paths_of ks w) vs) ->
  exists item w1,
    save_current_preset preset_name w = (Return (Some item, None), w1) /\
    shader_presets w1 !! Z.to_nat (shader_preset_index w1) = Some item /\
    let w2 := (apply_shader_preset (shader_preset_index w1) w1).2 in
    paths_of ks w2 = paths_of ks w /\
    live_values w2 (paths_of ks w2) vs.
Proof.
  intros Hks Hname Hlive Hjs Hloads.
  rewrite (save_current_preset_live _ _ _ _ _ Hks Hname Hlive Hjs).
  set (item := {| name := preset_name; values_json := js |}).
  set (w1 := set_shader_preset_index _ _).
  assert (Hidx : shader_preset_index w1 = Z.of_nat (length (shader_presets w))).
  { unfold w1; simpl. rewrite length_app; simpl. lia. }
  assert (Hitem : shader_presets w1 !! Z.to_nat (shader_preset_index w1) = Some item).
  { rewrite Hidx, Nat2Z.id. unfold w1; simpl.
    by rewrite lookup_app_r, Nat.sub_diag. }
  exists item, w1. split; [done|]. split; [done|].
  assert (Hentries : Forall (entry_live w1) (zip_with record_of (paths_of ks w) vs)).
  { clear -Hlive. induction Hlive as [|path v ps vs' Hv _ IH]; simpl; [done|].
    constructor; [|done]. apply record_of_live.
    by rewrite (live_value_materials w1 w). }
  cbv zeta.
  assert (Hpos : 0 <= shader_preset_index w1) by (rewrite Hidx; lia).
  rewrite (apply_shader_preset_state w1 _ item _ Hpos Hitem Hloads).
  pose proof (apply_entries_live (frame_current w1) _ w1 Hentries) as Hmat.
  pose proof (apply_entries_keying_sets (frame_current w1)
                (zip_with record_of (paths_of ks w) vs) w1) as Hsets.
  set (w2 := (for_fold _ _ _ _).2) in *.
  assert (Hpaths : paths_of ks w2 = paths_of ks w).
  { unfold paths_of. by rewrite Hsets. }
  split; [done|]. rewrite Hpaths.
  eapply Forall2_impl; [exact Hlive|]. intros path v <-.
  apply live_value_materials. by rewrite Hmat.
Qed.

(** ** Discovery *)

Lemma extract_split (ks_name : string) (w : World) :
  extract_shader_keying_set ks_name w =
  (ks <- extract_prepare ks_name ;; extract_rest ks) w.
Proof.
  unfold extract_shader_keying_set, extract_prepare, extract_rest.
  cbv beta iota delta [bind gets modify ret keying_sets_get].
  destruct (keying_sets_find ks_name (keying_sets w)) as [ks|]; reflexivity.
Qed.

Lemma keying_sets_find_Some (nm : string) (l : list KeyingSet) (i : nat) :
  keying_sets_find nm l = Some i ->
  exists k, l !! i = Some k /\ KeyingSet_name k = nm.
Proof.
  revert i; induction l as [|k l IH]; intros i; simpl; [done|].
  case_decide as Hk.
  - intros [= <-]. by exists k.
  - destruct (keying_sets_find nm l) as [j|]; simpl; [|done].
    intros [= <-]. by apply IH.
Qed.

Lemma keying_sets_find_alter (nm : string) (f : KeyingSet -> KeyingSet)
    (i : nat) (l : list KeyingSet) :
  (forall k, KeyingSet_name (f k) = KeyingSet_name k) ->
  keying_sets_find nm (alter f i l) = keying_sets_find nm l.
Proof.
  intros Hf. revert i; induction l as [|k l IH]; intros [|i]; simpl; try done.
  - by rewrite Hf.
  - case_decide; [done|]. f_equal. apply IH.
Qed.

Lemma keying_sets_find_new (nm : string) (ps : list KS_Path) (l : list KeyingSet) :
  keying_sets_find nm l = None ->
  keying_sets_find nm (l ++ [{| KeyingSet_name := nm; KeyingSet_paths := ps |}])
    = Some (length l).
Proof.
  induction l as [|k l IH]; simpl.
  - intros _. by rewrite decide_True.
  - case_decide; [done|].
    destruct (keying_sets_find nm l); simpl; [done|].
    intros _. by rewrite IH.
Qed.

Lemma alter_fixed {A} (f : A -> A) (i : nat) (l : list A) (x : A) :
  l !! i = Some x -> f x = x -> alter f i l = l.
Proof.
  intros Hx Hf. apply list_eq. intros j.
  destruct (decide (i = j)) as [<-|Hne].
  - by rewrite list_lookup_alter_eq, Hx; simpl; rewrite Hf.
  - by rewrite list_lookup_alter_ne.
Qed.

(** The first statements of discovery leave the keying set of the given
    name empty and active, and they undo whatever a discovery loop added to
    it afterwards. *)
Lemma extract_prepare_spec (ks_name : string) (w : World) :
  exists ks P,
    extract_prepare ks_name w = (Return ks, P) /\
    keying_sets_find ks_name (keying_sets P) = Some ks /\
    keying_sets P !! ks =
      Some {| KeyingSet_name := ks_name; KeyingSet_paths := [] |} /\
    (forall added,
       extract_prepare ks_name (with_added ks added P) = (Return ks, P)).
Proof.
  unfold extract_prepare. mred.
  destruct (keying_sets_find ks_name (keying_sets w)) as [i|] eqn:Hfind.
  - destruct (keying_sets_find_Some _ _ _ Hfind) as (k & Hk & Hname).
    eexists _, _; split; [reflexivity|]. simpl. repeat split.
    + by rewrite keying_sets_find_alter.
    + rewrite list_lookup_alter_eq, Hk; simpl. unfold with_paths. by rewrite Hname.
    + intros added. mred. simpl.
      rewrite !keying_sets_find_alter, Hfind by done.
      unfold set_keying_sets_active, set_keying_sets; simpl. do 2 f_equal.
      rewrite !list_alter_alter_eq. by apply list_alter_ext.
  - eexists _, _; split; [reflexivity|]. simpl. repeat split.
    + by apply keying_sets_find_new.
    + by rewrite lookup_app_r, Nat.sub_diag.
    + intros added. mred. simpl. rewrite alter_last.
      unfold add_paths, with_paths at 1; simpl.
      rewrite keying_sets_find_new by done.
      unfold set_keying_sets_active, set_keying_sets; simpl. do 2 f_equal.
      by rewrite !alter_last.
Qed.

Lemma with_added_nil (ks : nat) (w : World) : with_added ks [] w = w.
Proof.
  unfold with_added. rewrite list_alter_id; [by destruct w|].
  intros [nm ps]. unfold add_paths, with_paths; simpl. by rewrite app_nil_r.
Qed.

Lemma with_added_app (ks : nat) (added more : list KS_Path) (w : World) :
  with_added ks more (with_added ks added w) = with_added ks (added ++ more) w.
Proof.
  unfold with_added, set_keying_sets; simpl. f_equal.
  rewrite list_alter_alter_eq. apply list_alter_ext; [|done].
  intros [nm ps] _. unfold add_paths, with_paths; simpl. by rewrite app_assoc.
Qed.

Lemma seen_inv_add (seen : gset (string * string * Z)) (added : list KS_Path)
    (path : KS_Path) :
  seen_inv seen added -> key_of path ∉ seen ->
  seen_inv ({[ key_of path ]} ∪ seen) (added ++ [path]).
Proof.
  intros [Hnd Hseen] Hnew. split.
  - rewrite fmap_app. apply NoDup_app. split; [done|]. split.
    + intros k Hk [->|[]%elem_of_nil]%elem_of_cons. by apply Hnew, Hseen.
    + apply NoDup_singleton.
  - intros k. rewrite fmap_app, elem_of_app, elem_of_union, elem_of_singleton.
    simpl. rewrite list_elem_of_singleton, Hseen. tauto.
Qed.

(** One f-curve: the loop body never raises, and adds at most the entry of
    a key not seen before. *)
Lemma extract_fcurve_spec (ks : nat) (m : string) (fcu : FCurve)
    (seen : gset (string * string * Z)) (added : list KS_Path) (w : World) :
  seen_inv seen added ->
  exists seen' added',
    extract_fcurve ks m seen fcu (with_added ks added w) =
      (Return seen', with_added ks added' w) /\
    seen_inv seen' added'.
Proof.
  intros Hinv. unfold extract_fcurve.
  destruct (keyframe_points fcu) as [|pt pts]; [by exists seen, added|].
  set (path := {| path_id := m; data_path := NODE_TREE +:+ fcu_data_path fcu;
                  array_index := fcu_array_index fcu |}).
  change (m, NODE_TREE +:+ fcu_data_path fcu, fcu_array_index fcu)
    with (key_of path).
  case_bool_decide as Hseen; [by exists seen, added|].
  exists ({[ key_of path ]} ∪ seen), (added ++ [path]). split.
  - mred. by rewrite <- with_added_app.
  - exact (seen_inv_add seen added path Hinv Hseen).
Qed.

Lemma extract_fcurves_spec (ks : nat) (m : string) (fcus : list FCurve)
    (seen : gset (string * string * Z)) (added : list KS_Path) (w : World) :
  seen_inv seen added ->
  exists seen' added',
    for_fold fcus seen (extract_fcurve ks m) (with_added ks added w) =
      (Return seen', with_added ks added' w) /\
    seen_inv seen' added'.
Proof.
  revert seen added; induction fcus as [|fcu fcus IH]; intros seen added Hinv; simpl.
  - by exists seen, added.
  - destruct (extract_fcurve_spec ks m fcu seen added w Hinv)
      as (seen1 & added1 & Hstep & Hinv1).
    destruct (IH seen1 added1 Hinv1) as (seen2 & added2 & Hrest & Hinv2).
    exists seen2, added2. split; [|done].
    unfold bind. by rewrite Hstep.
Qed.

(** One material: the loop body skips it, walks its f-curves, or raises on
    a reference to a material that is gone; what was added stays free of
    duplicates in each case. *)
Lemma extract_material_spec (ks : nat) (m : string)
    (seen : gset (string * string * Z)) (added : list KS_Path) (w : World) :
  seen_inv seen added ->
  exists r added',
    extract_material ks seen m (with_added ks added w) =
      (r, with_added ks added' w) /\
    match r with
    | Return seen' => seen_inv seen' added'
    | Raise _ => NoDup (key_of <$> added')
    end.
Proof.
  intros Hinv. unfold extract_material. mred. simpl.
  destruct (materials w !! m) as [mat|]; [|exists (Raise ReferenceError), added; by destruct Hinv].
  destruct (node_tree mat) as [nt|]; [|by exists (Return seen), added].
  destruct (animation_data nt) as [ad|]; [|by exists (Return seen), added].
  destruct (action ad) as [act|]; [|by exists (Return seen), added].
  destruct (extract_fcurves_spec ks m (fcurves act) seen added w Hinv)
    as (seen' & added' & Hloop & Hinv').
  by exists (Return seen'), added'.
Qed.

Lemma extract_materials_spec (ks : nat) (mats : list string)
    (seen : gset (string * string * Z)) (added : list KS_Path) (w : World) :
  seen_inv seen added ->
  exists r added',
    for_fold mats seen (extract_material ks) (with_added ks added w) =
      (r, with_added ks added' w) /\
    NoDup (key_of <$> added').
Proof.
  revert seen added; induction mats as [|m mats IH]; intros seen added Hinv; simpl.
  - exists (Return seen), added. by destruct Hinv.
  - destruct (extract_material_spec ks m seen added w Hinv)
      as (r1 & added1 & Hstep & Hpost).
    unfold bind. rewrite Hstep. destruct r1 as [seen1|e].
    + apply IH, Hpost.
    + by exists (Raise e), added1.
Qed.

(** The rest of discovery adds entries with pairwise distinct keys to the
    keying set and changes nothing else. *)
Lemma extract_rest_spec (ks : nat) (w : World) :
  exists r added,
    extract_rest ks w = (r, with_added ks added w) /\
    NoDup (key_of <$> added) /\
    (forall n, r = Return n -> n = length (paths_of ks (with_added ks added w))).
Proof.
  unfold extract_rest. mred.
  set (mats := dict_values _).
  assert (Hinv : seen_inv ∅ []).
  { split; [constructor|]. intros k. simpl. rewrite elem_of_nil. set_solver. }
  destruct (extract_materials_spec ks mats ∅ [] w Hinv) as (r & added & Hloop & Hnd).
  rewrite with_added_nil in Hloop. rewrite Hloop.
  destruct r as [seen|e].
  - eexists _, added. split; [reflexivity|]. split; [done|]. by intros n [= <-].
  - exists (Raise e), added. by split.
Qed.

(** C2: discovery is an idempotent rebuild without duplicates.  Running
    [extract_shader_keying_set] again, with the same name and the same
    candidates, gives the result and the world of the first run, so the
    keying set has the same entries and the same entry count; and in the
    keying set the first run leaves no two entries have the same
    (owner name, path, index). *)
Theorem extract_idempotent_nodup (w : World) (ks_name : string) :
  let once := extract_shader_keying_set ks_name w in
  let twice := extract_shader_keying_set ks_name once.2 in
  twice = once /\
  exists ks k,
    keying_sets_find ks_name (keying_sets once.2) = Some ks /\
    keying_sets once.2 !! ks = Some k /\
    KeyingSet_name k = ks_name /\
    NoDup (key_of <$> KeyingSet_paths k) /\
    (forall n, once.1 = Return n -> n = length (KeyingSet_paths k)).
Proof.
  cbv zeta. rewrite !extract_split.
  destruct (extract_prepare_spec ks_name w) as (ks & P & Hprep & Hfind & Hlook & Hagain).
  destruct (extract_rest_spec ks P) as (r & added & Hrest & Hnd & Hcount).
  assert (Honce : (ks <- extract_prepare ks_name ;; extract_rest ks) w
                  = (r, with_added ks added P)).
  { unfold bind. by rewrite Hprep. }
  rewrite Honce. simpl. split.
  - unfold bind. by rewrite Hagain.
  - exists ks, (add_paths added {| KeyingSet_name := ks_name; KeyingSet_paths := [] |}).
    assert (Hk : keying_sets (with_added ks added P) !! ks =
                 Some (add_paths added
                         {| KeyingSet_name := ks_name; KeyingSet_paths := [] |})).
    { unfold with_added; simpl. by rewrite list_lookup_alter_eq, Hlook. }
    split; [|split; [exact Hk|split; [done|split; [done|]]]].
    + unfold with_added; simpl. by rewrite keying_sets_find_alter.
    + intros n Hn. rewrite (Hcount n Hn). unfold paths_of. by rewrite Hk.
Qed.

(** * Further properties of the code *)

(** ** Replay: nothing to apply, and a failing entry *)

Lemma apply_path_not_keyable (frame : Z) (count : nat) (path : KS_Path) (w : World) :
  ~ keyable w path ->
  exists e, apply_path frame count path w = (Raise e, w).
Proof.
  unfold keyable, apply_path.
  destruct (materials w !! path_id path) as [mat|] eqn:Hm.
  - destruct (Py.startswith (data_path path) NODE_TREE).
    + destruct (node_tree mat) as [t|] eqn:Ht.
      * destruct (rna_lookup (nt_values t)
                    (Py.drop (Py.len NODE_TREE) (data_path path))) eqn:Hv.
        { intros []. by eexists. }
        intros _. mrun. by eexists.
      * intros _. mrun. by eexists.
    + destruct (rna_lookup (mat_values mat) (data_path path)) eqn:Hv.
      { intros []. by eexists. }
      intros _. destruct (0 <? array_index path); mrun; by eexists.
  - intros _. destruct (Py.startswith (data_path path) NODE_TREE).
    + mrun. by eexists.
    + destruct (0 <? array_index path); mrun; by eexists.
Qed.

(** X1: [KS_OT_ApplyShader.execute] when there is nothing to apply: the chosen
    name, stripped, names no keying set, or names one without entries.  The
    operator reports an error that quotes the stripped name and cancels; no
    value-record is committed and nothing else changes. *)
Theorem apply_shader_operator_nothing_to_apply (w : World) :
  let name := Py.strip (ks_apply_shader_set w) in
  keying_sets_find name (keying_sets w) = None \/
  (exists ks, keying_sets_find name (keying_sets w) = Some ks /\ paths_of ks w = []) ->
  KS_OT_ApplyShader_execute w =
    (Return CANCELLED,
     set_reports (reports w ++ [(ERROR, "No keys from '" +:+ name +:+ "'")]) w).
Proof.
  intros name Hnone. subst name.
  unfold KS_OT_ApplyShader_execute, apply_shader_keying_set.
  destruct Hnone as [Hnone|(ks & Hks & Hps)].
  - mrun. reflexivity.
  - mrun. rewrite Hps. reflexivity.
Qed.

(** X2: Replay has no rollback: when the entries before [bad] can take a
    value-record and [bad] cannot, [apply_shader_keying_set] raises at [bad]
    with the value-records of the entries before it committed, and the
    entries after it are not replayed. *)
Theorem apply_shader_keying_set_partial (w : World) (ks_name : string) (ks : nat)
    (pre post : list KS_Path) (bad : KS_Path) :
  keying_sets_find ks_name (keying_sets w) = Some ks ->
  paths_of ks w = pre ++ bad :: post ->
  Forall (keyable w) pre ->
  ~ keyable w bad ->
  exists e,
    apply_shader_keying_set ks_name w =
      (Raise e,
       set_keyframes (keyframes w ++ (keyframe_of (frame_current w) <$> pre)) w).
Proof.
  intros Hks Hps Hpre Hbad.
  destruct (apply_path_not_keyable (frame_current w) (0 + length pre) bad
              (set_keyframes (keyframes w ++ (keyframe_of (frame_current w) <$> pre)) w)
              Hbad) as [e He].
  exists e. unfold apply_shader_keying_set. mrun. rewrite Hps, for_fold_app.
  unfold bind at 1. rewrite (apply_paths_keyable _ _ _ _ Hpre).
  cbn [for_fold]. unfold bind. by rewrite He.
Qed.

(** ** Capture: failures *)

(** The capture loop reads the world and leaves it as it is, whether it
    completes or raises. *)
Lemma capture_paths_pure (ps : list KS_Path) (data : list Entry) (w : World) :
  (for_fold ps data capture_path w).2 = w.
Proof.
  revert data; induction ps as [|path ps IH]; intros data; simpl; [done|].
  unfold bind at 1. unfold capture_path at 1. unfold bind at 1.
  rewrite resolve_live_eq. destruct (live_value w path) as [v|e]; [|done].
  mred. apply IH.
Qed.

Lemma capture_paths_raise (ps : list KS_Path) (data : list Entry) (w : World) :
  Exists (fun path => exists e, live_value w path = Raise e) ps ->
  exists e, for_fold ps data capture_path w = (Raise e, w).
Proof.
  intros Hex. revert data.
  induction ps as [|path ps IH]; intros data; [by apply Exists_nil in Hex|].
  simpl. unfold bind at 1. unfold capture_path at 1. unfold bind at 1.
  rewrite resolve_live_eq. destruct (live_value w path) as [v|e] eqn:Hv.
  - mred. apply IH. apply Exists_cons in Hex as [[e He]|Hex]; [congruence|done].
  - by exists e.
Qed.

(** X3: [save_current_preset] on a keying set with an entry that does not
    resolve (its owner is gone, it has no node tree, or the path is not
    there) raises before it touches the store: the world is unchanged. *)
Theorem save_current_preset_unresolved (w : World) (preset_name : string) (ks : nat) :
  keying_sets_find (Py.strip (ks_apply_shader_set w)) (keying_sets w) = Some ks ->
  preset_name <> EmptyString ->
  Exists (fun path => exists e, live_value w path = Raise e) (paths_of ks w) ->
  exists e, save_current_preset preset_name w = (Raise e, w).
Proof.
  intros Hks Hname Hex.
  destruct (capture_paths_raise _ [] w Hex) as [e He].
  exists e. unfold save_current_preset. mrun.
  destruct preset_name as [|c preset_name]; [done|]. simpl.
  mred. by rewrite He.
Qed.

(** X4: [save_current_preset] when the values resolve and [json.dumps] raises:
    the item is already in the store, under the given name and with an empty
    text, and stays there; the active index is not moved. *)
Theorem save_current_preset_dumps_raises (w : World) (preset_name : string) (ks : nat)
    (vs : list value) :
  keying_sets_find (Py.strip (ks_apply_shader_set w)) (keying_sets w) = Some ks ->
  preset_name <> EmptyString ->
  live_values w (paths_of ks w) vs ->
  json_dumps (zip_with record_of (paths_of ks w) vs) = None ->
  save_current_preset preset_name w =
    (Raise TypeError,
     set_shader_presets
       (shader_presets w ++ [{| name := preset_name; values_json := EmptyString |}]) w).
Proof.
  intros Hks Hname Hlive Hjs. unfold save_current_preset. mrun.
  destruct preset_name as [|c preset_name]; [done|]. simpl.
  mred. rewrite (capture_paths_live _ _ _ _ Hlive), app_nil_l. mrun.
  unfold set_shader_presets; simpl. by rewrite alter_last.
Qed.

(** X5: [apply_shader_preset] on a preset whose text does not decode (the empty
    text of a preset left by a failed save, for one) raises and changes
    nothing. *)
Theorem apply_shader_preset_undecodable (w : World) (idx : Z) (item : ShaderPresetItem) :
  0 <= idx ->
  shader_presets w !! Z.to_nat idx = Some item ->
  json_loads (values_json item) = None ->
  apply_shader_preset idx w = (Raise ValueError, w).
Proof.
  intros Hidx Hitem Hloads. unfold apply_shader_preset. mred.
  apply lookup_lt_Some in Hitem as Hlt.
  destruct (idx <? 0) eqn:Hneg; [lia|].
  destruct (Z.of_nat (length (shader_presets w)) <=? idx) eqn:Hge; [lia|].
  simpl. mrun. reflexivity.
Qed.

(** ** Restore: what is written and what is not *)

Lemma len_app (a b : string) : Py.len (a +:+ b) = (Py.len a + Py.len b)%nat.
Proof.
  unfold Py.len. induction a as [|c a IH]; [done|].
  change (S (String.length (a +:+ b)) = S (String.length a + String.length b)).
  by rewrite IH.
Qed.

Lemma drop_app (a b : string) : Py.drop (Py.len a) (a +:+ b) = b.
Proof. induction a as [|c a IH]; [done|]. exact IH. Qed.

Lemma take_app (a b : string) : Py.take (Py.len a) (a +:+ b) = a.
Proof.
  induction a as [|c a IH]; [by destruct b|].
  change (String c (Py.take (Py.len a) (a +:+ b)) = String c a). by rewrite IH.
Qed.

Lemma endswith_app (a b : string) : Py.endswith (a +:+ b) b = true.
Proof.
  apply bool_decide_eq_true_2. rewrite len_app.
  replace (Py.len a + Py.len b - Py.len b)%nat with (Py.len a) by lia.
  apply drop_app.
Qed.

Lemma drop_end_app (a b : string) : Py.drop_end (Py.len b) (a +:+ b) = a.
Proof.
  unfold Py.drop_end. rewrite len_app.
  replace (Py.len a + Py.len b - Py.len b)%nat with (Py.len a) by lia.
  apply take_app.
Qed.

(** The loop body on a record of the socket kind whose socket is there:
    the stored value is written to the socket and one value-record is
    committed on it. *)
Lemma apply_entry_socket (frame : Z) (m base : string) (val old : value)
    (mat : Material) (t : NodeTree) (w : World) :
  materials w !! m = Some mat ->
  node_tree mat = Some t ->
  base <> EmptyString ->
  nt_values t !! (base +:+ DEFAULT_VALUE) = Some old ->
  apply_entry frame tt
    {| e_material := m; e_data_path := NODE_TREE +:+ base +:+ DEFAULT_VALUE;
       e_value := val |} w =
    (Return tt,
     set_keyframes
       (keyframes w ++
          [{| kf_on := OnSocket m base; kf_data_path := "default_value";
              kf_index := None; kf_frame := frame |}])
       (set_materials
          (<[m := {| node_tree :=
                       Some {| animation_data := animation_data t;
                               nt_values :=
                                 <[base +:+ DEFAULT_VALUE := val]> (nt_values t) |};
                     mat_values := mat_values mat |}]> (materials w)) w)).
Proof.
  intros Hm Ht Hbase Hold. unfold apply_entry. cbn [e_material e_data_path e_value].
  rewrite startswith_app.
  assert (Hend : Py.endswith (NODE_TREE +:+ base +:+ DEFAULT_VALUE) DEFAULT_VALUE = true).
  { rewrite <- append_assoc. apply endswith_app. }
  rewrite Hend, drop_app, drop_end_app. cbn [andb].
  assert (Hstruct : rna_struct (nt_values t) base = true)
    by exact (rna_struct_attr _ base "default_value" old Hbase Hold).
  change (base +:+ DEFAULT_VALUE) with (attr_path base "default_value") in *.
  mrun. simpl. rewrite lookup_insert_eq. mred. simpl.
  rewrite lookup_insert_eq. reflexivity.
Qed.

(** X6: Restoring a preset that holds one record of the socket kind, for a
    socket that is there: [apply_shader_preset] returns [True], the socket
    has the stored value afterwards, and one value-record is committed on the
    socket at the time cursor. *)
Theorem apply_shader_preset_socket (w : World) (idx : Z) (item : ShaderPresetItem)
    (m base : string) (val old : value) (mat : Material) (t : NodeTree) :
  0 <= idx ->
  shader_presets w !! Z.to_nat idx = Some item ->
  json_loads (values_json item) =
    Some [{| e_material := m; e_data_path := NODE_TREE +:+ base +:+ DEFAULT_VALUE;
             e_value := val |}] ->
  materials w !! m = Some mat ->
  node_tree mat = Some t ->
  base <> EmptyString ->
  nt_values t !! (base +:+ DEFAULT_VALUE) = Some old ->
  exists w',
    apply_shader_preset idx w = (Return true, w') /\
    live_value w'
      {| path_id := m; data_path := NODE_TREE +:+ base +:+ DEFAULT_VALUE;
         array_index := 0 |} = Return val /\
    keyframes w' =
      keyframes w ++
        [{| kf_on := OnSocket m base; kf_data_path := "default_value";
            kf_index := None; kf_frame := frame_current w |}].
Proof.
  intros Hidx Hitem Hloads Hm Ht Hbase Hold.
  eexists. split; [|split].
  - unfold apply_shader_preset. mred.
    apply lookup_lt_Some in Hitem as Hlt.
    destruct (idx <? 0) eqn:Hneg; [lia|].
    destruct (Z.of_nat (length (shader_presets w)) <=? idx) eqn:Hge; [lia|].
    cbn [orb]. mrun. cbn [for_fold]. unfold bind.
    rewrite (apply_entry_socket _ _ _ _ _ _ _ _ Hm Ht Hbase Hold).
    mred. reflexivity.
  - unfold live_value, resolve_live. cbn [path_id data_path].
    rewrite startswith_app, drop_app. mred. simpl.
    rewrite lookup_insert_eq. mred. simpl. rewrite lookup_insert_eq. simpl.
    unfold rna_lookup. rewrite lookup_insert_eq.
    destruct base; [done|]. reflexivity.
  - reflexivity.
Qed.

(** The loop body on a record that is not of the socket kind, or whose
    owner name does not resolve: it never raises, writes no value, and
    commits the value-record of [fallback_commit], if any. *)
Lemma apply_entry_fallback (frame : Z) (entry : Entry) (w : World) :
  materials w !! e_material entry = None \/ socket_kind entry = false ->
  apply_entry frame tt entry w =
    (Return tt,
     match materials w !! e_material entry with
     | None => w
     | Some _ =>
         set_keyframes (keyframes w ++ option_list (fallback_commit w frame entry)) w
     end).
Proof.
  intros Hkind. unfold apply_entry, fallback_commit. mred.
  destruct (materials w !! e_material entry) as [mat|] eqn:Hm; [|done].
  destruct Hkind as [|Hkind]; [done|]. unfold socket_kind in Hkind.
  rewrite Hkind. mrun.
  destruct (rna_lookup (mat_values mat) (e_data_path entry)); simpl.
  - reflexivity.
  - rewrite app_nil_r. by destruct w.
Qed.

Lemma apply_entries_fallback (frame : Z) (entries : list Entry) (w : World) :
  Forall (fun entry =>
            materials w !! e_material entry = None \/ socket_kind entry = false)
    entries ->
  for_fold entries tt (apply_entry frame) w =
    (Return tt,
     set_keyframes (keyframes w ++ omap (fallback_commit w frame) entries) w).
Proof.
  revert w; induction entries as [|entry entries IH]; intros w Hall.
  - simpl. unfold ret. rewrite app_nil_r. by destruct w.
  - inversion Hall as [|? ? Hentry Hrest]; subst.
    cbn [for_fold]. unfold bind. rewrite (apply_entry_fallback _ _ _ Hentry).
    cbn [omap list_omap]. unfold fallback_commit at 2.
    destruct (materials w !! e_material entry) as [mat|] eqn:Hm.
    + rewrite IH by exact Hrest.
      unfold fallback_commit at 1. rewrite Hm.
      destruct (rna_lookup (mat_values mat) (e_data_path entry)); simpl.
      * unfold set_keyframes; simpl. by rewrite <- app_assoc.
      * rewrite app_nil_r. unfold set_keyframes; simpl. by destruct w.
    + by rewrite IH.
Qed.

(** The restore of a preset all of whose records take the fallback path or
    are skipped, as one equation. *)
Lemma apply_entries_fallback_preset (w : World) (idx : Z) (item : ShaderPresetItem)
    (entries : list Entry) :
  0 <= idx ->
  shader_presets w !! Z.to_nat idx = Some item ->
  json_loads (values_json item) = Some entries ->
  Forall (fun entry =>
            materials w !! e_material entry = None \/ socket_kind entry = false)
    entries ->
  apply_shader_preset idx w =
    (Return true,
     set_keyframes
       (keyframes w ++ omap (fallback_commit w (frame_current w)) entries) w).
Proof.
  intros Hidx Hitem Hloads Hall. unfold apply_shader_preset. mred.
  apply lookup_lt_Some in Hitem as Hlt.
  destruct (idx <? 0) eqn:Hneg; [lia|].
  destruct (Z.of_nat (length (shader_presets w)) <=? idx) eqn:Hge; [lia|].
  cbn [orb]. mrun. by rewrite (apply_entries_fallback _ _ _ Hall).
Qed.

(** X7: Restoring a preset without a record of the socket kind on a live owner:
    [apply_shader_preset] returns [True] and writes no value at all, so the
    captured values of such records are not put back; it only commits, in
    record order, a value-record of the current value for each record whose
    owner is live and can key the path, and skips the others. *)
Theorem apply_shader_preset_fallback_only (w : World) (idx : Z) (item : ShaderPresetItem)
    (entries : list Entry) :
  0 <= idx ->
  shader_presets w !! Z.to_nat idx = Some item ->
  json_loads (values_json item) = Some entries ->
  Forall (fun entry =>
            materials w !! e_material entry = None \/ socket_kind entry = false)
    entries ->
  apply_shader_preset idx w =
    (Return true,
     set_keyframes
       (keyframes w ++ omap (fallback_commit w (frame_current w)) entries) w).
Proof. exact (apply_entries_fallback_preset w idx item entries). Qed.

(** ** Capture: what a successful save stores, and undoing it *)

(** X8: A successful [save_current_preset]: the preset returned is the one
    stored; it goes to the end of the store, after the presets that were
    there, under the given name and with the text of the records of the
    keying set in entry order; the active index becomes its position; the
    materials, the keying sets and the value-records are untouched. *)
Theorem save_current_preset_stores (w : World) (preset_name : string) (ks : nat)
    (vs : list value) (js : string) :
  keying_sets_find (Py.strip (ks_apply_shader_set w)) (keying_sets w) = Some ks ->
  preset_name <> EmptyString ->
  live_values w (paths_of ks w) vs ->
  json_dumps (zip_with record_of (paths_of ks w) vs) = Some js ->
  exists w',
    save_current_preset preset_name w =
      (Return (Some {| name := preset_name; values_json := js |}, None), w') /\
    shader_presets w' =
      shader_presets w ++ [{| name := preset_name; values_json := js |}] /\
    shader_preset_index w' = Z.of_nat (length (shader_presets w)) /\
    materials w' = materials w /\ keying_sets w' = keying_sets w /\
    keyframes w' = keyframes w /\ reports w' = reports w.
Proof.
  intros Hks Hname Hlive Hjs.
  rewrite (save_current_preset_live _ _ _ _ _ Hks Hname Hlive Hjs).
  eexists; split; [reflexivity|]. simpl. repeat split.
  rewrite length_app; simpl. lia.
Qed.

(** X9: Removing the preset a successful save has just stored (it is the
    active one) gives back the store as it was before the save, with the
    active index on its last preset; nothing else differs from the world
    before the save. *)
Theorem save_then_remove_preset (w : World) (preset_name : string) (ks : nat)
    (vs : list value) (js : string) :
  keying_sets_find (Py.strip (ks_apply_shader_set w)) (keying_sets w) = Some ks ->
  preset_name <> EmptyString ->
  live_values w (paths_of ks w) vs ->
  json_dumps (zip_with record_of (paths_of ks w) vs) = Some js ->
  KS_OT_RemovePreset_execute (save_current_preset preset_name w).2 =
    (Return FINISHED,
     set_shader_preset_index (Z.of_nat (length (shader_presets w)) - 1) w).
Proof.
  intros Hks Hname Hlive Hjs.
  rewrite (save_current_preset_live _ _ _ _ _ Hks Hname Hlive Hjs).
  unfold KS_OT_RemovePreset_execute. mred. simpl.
  rewrite length_app. simpl.
  replace (Z.of_nat (length (shader_presets w) + 1) - 1)
    with (Z.of_nat (length (shader_presets w))) by lia.
  rewrite (proj2 (Z.ltb_ge _ 0)) by lia.
  rewrite (proj2 (Z.leb_gt _ _)) by lia.
  simpl. rewrite Nat2Z.id, delete_middle, app_nil_r.
  unfold set_shader_presets, set_shader_preset_index; simpl.
  do 2 f_equal. lia.
Qed.

(** ** Batch capture: a failing keying set *)

(** X10: Batch capture is not atomic: when the keying sets before [bad] resolve
    and serialize and [bad] has an entry that does not resolve, the operator
    raises at [bad] with the presets of the sets before it stored; the
    active index is not moved and nothing is reported. *)
Theorem batch_collect_partial (w : World) (pre post : list KeyingSet) (bad : KeyingSet)
    (caps : list (list value * string)) :
  keying_sets w = pre ++ bad :: post ->
  Forall2 (captures w) pre caps ->
  Exists (fun path => exists e, live_value w path = Raise e) (KeyingSet_paths bad) ->
  exists e,
    KS_OT_BatchCollect_execute w =
      (Raise e,
       set_shader_presets (shader_presets w ++ zip_with preset_of pre caps.*2) w).
Proof.
  intros Hsets Hcaps Hbad.
  set (w1 := set_shader_presets (shader_presets w ++ zip_with preset_of pre caps.*2) w).
  assert (Hbad1 : Exists (fun path => exists e, live_value w1 path = Raise e)
                    (KeyingSet_paths bad)).
  { eapply Exists_impl; [exact Hbad|]. intros path [e He]. exists e.
    by rewrite (live_value_materials w1 w). }
  destruct (capture_paths_raise _ [] w1 Hbad1) as [e He].
  exists e. unfold KS_OT_BatchCollect_execute. mred.
  rewrite Hsets, for_fold_app.
  unfold bind at 1. rewrite (batch_collect_sets_captures _ _ _ _ Hcaps).
  fold w1. cbn [for_fold]. unfold bind at 1. unfold batch_collect_set at 1.
  unfold bind at 1. by rewrite He.
Qed.

(** ** The active index *)

Lemma apply_entry_store (frame : Z) (entry : Entry) (w : World) :
  shader_presets (apply_entry frame tt entry w).2 = shader_presets w /\
  shader_preset_index (apply_entry frame tt entry w).2 = shader_preset_index w.
Proof.
  unfold apply_entry. mred.
  repeat (case_match; simplify_eq; mred; simpl; try done).
Qed.

Lemma apply_path_store (frame : Z) (count : nat) (path : KS_Path) (w : World) :
  shader_presets (apply_path frame count path w).2 = shader_presets w /\
  shader_preset_index (apply_path frame count path w).2 = shader_preset_index w.
Proof.
  unfold apply_path. mred.
  repeat (case_match; simplify_eq; mred; simpl; try done).
Qed.

(** A loop whose body keeps the store keeps the store. *)
Lemma for_fold_store {A S} (l : list A) (body : S -> A -> M S) (s : S) (w : World) :
  (forall s a w,
     shader_presets (body s a w).2 = shader_presets w /\
     shader_preset_index (body s a w).2 = shader_preset_index w) ->
  shader_presets (for_fold l s body w).2 = shader_presets w /\
  shader_preset_index (for_fold l s body w).2 = shader_preset_index w.
Proof.
  intros Hbody. revert s w; induction l as [|a l IH]; intros s w; simpl; [done|].
  unfold bind. destruct (Hbody s a w) as [Hp Hi].
  destruct (body s a w) as [[s'|e] w1]; simpl in *; [|done].
  destruct (IH s' w1) as [Hp' Hi']. split; congruence.
Qed.

Lemma extract_store (ks_name : string) (w : World) :
  shader_presets (extract_shader_keying_set ks_name w).2 = shader_presets w /\
  shader_preset_index (extract_shader_keying_set ks_name w).2 = shader_preset_index w.
Proof.
  rewrite extract_split.
  assert (Hprep : exists ks P, extract_prepare ks_name w = (Return ks, P) /\
            shader_presets P = shader_presets w /\
            shader_preset_index P = shader_preset_index w).
  { unfold extract_prepare. mred.
    destruct (keying_sets_find ks_name (keying_sets w)); by eexists _, _. }
  destruct Hprep as (ks & P & Hprep & Hp & Hi).
  destruct (extract_rest_spec ks P) as (r & added & Hrest & _).
  unfold bind. rewrite Hprep, Hrest. simpl. by split.
Qed.

Lemma batch_collect_set_index_ok (cnt : nat) (ks : KeyingSet) (w : World) :
  index_ok w -> index_ok (batch_collect_set cnt ks w).2.
Proof.
  intros Hok. unfold batch_collect_set. unfold bind at 1.
  pose proof (capture_paths_pure (KeyingSet_paths ks) [] w) as Hpure.
  destruct (for_fold (KeyingSet_paths ks) [] capture_path w) as [[data|e] w1];
    simpl in Hpure; subst w1; [|done].
  mred. destruct (json_dumps data); simpl;
    unfold index_ok in *; simpl; rewrite ?length_alter, length_app; simpl; lia.
Qed.

(** X11: Every operation on the world keeps the active index inside the store,
    or at [-1], or at the [0] it has when the store is created: whatever the
    operation returns or raises, the index is between [-1] and the last
    position of the store (0 for a store without presets). *)
Theorem index_ok_preserved (w : World) :
  index_ok w ->
  (forall ks_name, index_ok (extract_shader_keying_set ks_name w).2) /\
  (forall ks_name, index_ok (apply_shader_keying_set ks_name w).2) /\
  (forall preset_name, index_ok (save_current_preset preset_name w).2) /\
  (forall idx, index_ok (apply_shader_preset idx w).2) /\
  index_ok (KS_OT_RemovePreset_execute w).2 /\
  index_ok (KS_OT_BatchCollect_execute w).2.
Proof.
  intros Hok. split; [|split; [|split; [|split; [|split]]]].
  - intros ks_name. destruct (extract_store ks_name w) as [Hp Hi].
    unfold index_ok in *. rewrite Hp, Hi. exact Hok.
  - intros ks_name. unfold apply_shader_keying_set. mred.
    destruct (keying_sets_find ks_name (keying_sets w)) as [ks|]; [|done].
    destruct (for_fold_store (paths_of ks w) (apply_path (frame_current w)) O w
                (apply_path_store (frame_current w))) as [Hp Hi].
    unfold index_ok in *. rewrite Hp, Hi. exact Hok.
  - intros preset_name. unfold save_current_preset. mred.
    destruct (keying_sets_find _ _) as [ks|]; [|done].
    destruct (negb (Py.truthy preset_name)); [done|]. mred.
    pose proof (capture_paths_pure (paths_of ks w) [] w) as Hpure.
    destruct (for_fold (paths_of ks w) [] capture_path w) as [[data|e] w1];
      simpl in Hpure; subst w1; [|done].
    mred. destruct (json_dumps data); simpl;
      unfold index_ok in *; simpl; rewrite ?length_alter, length_app; simpl; lia.
  - intros idx. unfold apply_shader_preset. mred.
    destruct ((idx <? 0) || (Z.of_nat (length (shader_presets w)) <=? idx)); [done|].
    destruct (shader_presets w !! Z.to_nat idx) as [item|]; [|done].
    mred. destruct (json_loads (values_json item)) as [entries|]; [|done].
    destruct (for_fold_store entries (apply_entry (frame_current w)) tt w
                (fun s => match s with tt => apply_entry_store (frame_current w) end))
      as [Hp Hi].
    destruct (for_fold entries tt (apply_entry (frame_current w)) w) as [[[]|e] w1];
      simpl in *; unfold index_ok in *; rewrite Hp, Hi; exact Hok.
  - unfold KS_OT_RemovePreset_execute. mred.
    destruct ((shader_preset_index w <? 0)
              || (Z.of_nat (length (shader_presets w)) <=? shader_preset_index w))
      eqn:Hguard; [done|].
    apply orb_false_iff in Hguard as [Hneg Hge].
    simpl. unfold index_ok; simpl. lia.
  - unfold KS_OT_BatchCollect_execute. mred.
    pose proof (for_fold_inv (fun _ w' => index_ok w') index_ok
                  (keying_sets w) batch_collect_set O w Hok) as Hinv.
    destruct (for_fold (keying_sets w) 0%nat batch_collect_set w) as [[cnt|e] w1].
    + simpl. unfold index_ok; simpl. lia.
    + simpl. apply Hinv. intros s w0 ks _ Hok0.
      pose proof (batch_collect_set_index_ok s ks w0 Hok0) as Hstep.
      by destruct (batch_collect_set s ks w0) as [[s'|e'] w2].
Qed.

(** ** Discovery: the candidates *)





(** ** Discovery: what is left alone, and what is found *)

(** The world after the first statements of discovery. *)
Lemma extract_prepare_shape (ks_name : string) (w : World) :
  exists ks L,
    extract_prepare ks_name w =
      (Return ks, set_keying_sets_active (Some ks) (set_keying_sets L w)) /\
    keying_sets_find ks_name L = Some ks /\
    (forall j k, keying_sets w !! j = Some k -> KeyingSet_name k <> ks_name ->
       L !! j = Some k /\ j <> ks).
Proof.
  unfold extract_prepare. mred.
  destruct (keying_sets_find ks_name (keying_sets w)) as [i|] eqn:Hfind.
  - destruct (keying_sets_find_Some _ _ _ Hfind) as (k & Hk & Hname).
    eexists _, _; split; [reflexivity|]. simpl. split.
    + by rewrite keying_sets_find_alter.
    + intros j k' Hj Hne. assert (j <> i) by (intros ->; congruence).
      split; [|done]. by rewrite list_lookup_alter_ne.
  - eexists _, _; split; [reflexivity|]. simpl. split.
    + by apply keying_sets_find_new.
    + intros j k' Hj Hne. apply lookup_lt_Some in Hj as Hlt.
      split; [|lia]. by rewrite lookup_app_l.
Qed.

(** X13: Discovery changes the keying set of the given name and the active
    keying set, and nothing else: it becomes the active set; the keying sets
    of other names, the materials, the preset store and its index, the
    value-records, the reports, the selection, the time cursor and the
    chosen set name are as before. *)
Theorem extract_touches_named_set_only (w : World) (ks_name : string) :
  let w' := (extract_shader_keying_set ks_name w).2 in
  (exists ks,
     keying_sets_find ks_name (keying_sets w') = Some ks /\
     keying_sets_active w' = Some ks) /\
  (forall j k, keying_sets w !! j = Some k -> KeyingSet_name k <> ks_name ->
     keying_sets w' !! j = Some k) /\
  materials w' = materials w /\
  shader_presets w' = shader_presets w /\
  shader_preset_index w' = shader_preset_index w /\
  keyframes w' = keyframes w /\
  reports w' = reports w /\
  selected_ids w' = selected_ids w /\
  selected_objects w' = selected_objects w /\
  frame_current w' = frame_current w /\
  ks_apply_shader_set w' = ks_apply_shader_set w.
Proof.
  cbv zeta. rewrite extract_split.
  destruct (extract_prepare_shape ks_name w) as (ks & L & Hprep & Hfind & Hother).
  destruct (extract_rest_spec ks (set_keying_sets_active (Some ks) (set_keying_sets L w)))
    as (r & added & Hrest & _).
  unfold bind. rewrite Hprep, Hrest. simpl. split; [|split; [|by repeat split]].
  - exists ks. split; [|done]. by rewrite keying_sets_find_alter.
  - intros j k Hj Hne. destruct (Hother j k Hj Hne) as [HL Hjks].
    by rewrite list_lookup_alter_ne.
Qed.

(** The f-curve loop, with what it adds. *)
Lemma extract_fcurves_exact (ks : nat) (m : string) (fcus : list FCurve)
    (seen : gset (string * string * Z)) (added : list KS_Path) (w : World) :
  seen_inv seen added ->
  exists seen' more,
    for_fold fcus seen (extract_fcurve ks m) (with_added ks added w) =
      (Return seen', with_added ks (added ++ more) w) /\
    seen_inv seen' (added ++ more) /\
    Forall (fun p => exists fcu,
              fcu ∈ fcus /\ keyframe_points fcu <> [] /\ p = entry_of m fcu) more /\
    (forall fcu, fcu ∈ fcus -> keyframe_points fcu <> [] ->
       key_of (entry_of m fcu) ∈ seen').
Proof.
  revert seen added; induction fcus as [|fcu fcus IH]; intros seen added Hinv.
  - exists seen, []. rewrite app_nil_r.
    split; [done|]. split; [done|]. split; [done|].
    intros fcu Hin. by apply elem_of_nil in Hin.
  - cbn [for_fold]. unfold bind.
    assert (Hstep : exists seen1 more1,
              extract_fcurve ks m seen fcu (with_added ks added w) =
                (Return seen1, with_added ks (added ++ more1) w) /\
              seen_inv seen1 (added ++ more1) /\
              Forall (fun p => keyframe_points fcu <> [] /\ p = entry_of m fcu) more1 /\
              (keyframe_points fcu <> [] -> key_of (entry_of m fcu) ∈ seen1)).
    { unfold extract_fcurve.
      destruct (keyframe_points fcu) as [|pt pts] eqn:Hpts.
      { exists seen, []. rewrite app_nil_r.
        split; [done|]. split; [done|]. split; [done|]. done. }
      change (m, NODE_TREE +:+ fcu_data_path fcu, fcu_array_index fcu)
        with (key_of (entry_of m fcu)).
      case_bool_decide as Hseen.
      { exists seen, []. rewrite app_nil_r.
        split; [done|]. split; [done|]. split; [done|]. done. }
      exists ({[ key_of (entry_of m fcu) ]} ∪ seen), [entry_of m fcu].
      split; [mred; by rewrite <- with_added_app|].
      split; [exact (seen_inv_add seen added _ Hinv Hseen)|].
      split; [by repeat constructor|].
      intros _. apply elem_of_union. left. by apply elem_of_singleton. }
    destruct Hstep as (seen1 & more1 & Hstep & Hinv1 & Hsound1 & Hcomp1).
    rewrite Hstep.
    destruct (IH seen1 (added ++ more1) Hinv1)
      as (seen2 & more2 & Hrest & Hinv2 & Hsound2 & Hcomp2).
    exists seen2, (more1 ++ more2). rewrite app_assoc.
    split; [done|]. split; [done|]. split.
    + apply Forall_app. split.
      * eapply Forall_impl; [exact Hsound1|]. intros p [Hpts ->].
        exists fcu. split; [apply list_elem_of_here|done].
      * eapply Forall_impl; [exact Hsound2|]. intros p (fcu' & Hin & Hpts & ->).
        exists fcu'. split; [by apply list_elem_of_further|done].
    + intros fcu' [->|Hin]%elem_of_cons Hpts.
      * destruct Hinv1 as [_ Hs1], Hinv2 as [_ Hs2].
        apply Hs2. rewrite fmap_app. apply elem_of_app. left.
        by apply Hs1, Hcomp1.
      * by apply Hcomp2.
Qed.

(** The loop body of a live material walks its animated f-curves. *)
Lemma extract_material_unfold (ks : nat) (seen : gset (string * string * Z))
    (m : string) (w : World) :
  extract_material ks seen m w =
    match materials w !! m with
    | None => (Raise ReferenceError, w)
    | Some _ => for_fold (animated_fcurves w m) seen (extract_fcurve ks m) w
    end.
Proof.
  unfold extract_material, animated_fcurves. mred.
  destruct (materials w !! m) as [mat|]; [|done].
  destruct (node_tree mat) as [nt|]; [|done].
  destruct (animation_data nt) as [ad|]; [|done].
  by destruct (action ad) as [act|].
Qed.

(** The material loop, with what it adds. *)
Lemma extract_materials_exact (ks : nat) (mats : list string)
    (seen : gset (string * string * Z)) (added : list KS_Path) (w : World) :
  seen_inv seen added ->
  exists r more,
    for_fold mats seen (extract_material ks) (with_added ks added w) =
      (r, with_added ks (added ++ more) w) /\
    Forall (fun p => exists m fcu,
              m ∈ mats /\ fcu ∈ animated_fcurves w m /\
              keyframe_points fcu <> [] /\ p = entry_of m fcu) more /\
    (Forall (fun m => is_Some (materials w !! m)) mats ->
     exists seen',
       r = Return seen' /\ seen_inv seen' (added ++ more) /\
       forall m fcu, m ∈ mats -> fcu ∈ animated_fcurves w m ->
         keyframe_points fcu <> [] -> key_of (entry_of m fcu) ∈ seen').
Proof.
  revert seen added; induction mats as [|m mats IH]; intros seen added Hinv.
  - exists (Return seen), []. rewrite app_nil_r. split; [done|]. split; [done|].
    intros _. exists seen. split; [done|]. split; [done|].
    intros m fcu Hin. by apply elem_of_nil in Hin.
  - cbn [for_fold]. unfold bind.
    assert (Hstep : exists r1 more1,
              extract_material ks seen m (with_added ks added w) =
                (r1, with_added ks (added ++ more1) w) /\
              Forall (fun p => exists fcu,
                        fcu ∈ animated_fcurves w m /\
                        keyframe_points fcu <> [] /\ p = entry_of m fcu) more1 /\
              match r1 with
              | Return seen1 =>
                  seen_inv seen1 (added ++ more1) /\
                  forall fcu, fcu ∈ animated_fcurves w m ->
                    keyframe_points fcu <> [] -> key_of (entry_of m fcu) ∈ seen1
              | Raise _ => materials w !! m = None
              end).
    { rewrite extract_material_unfold.
      change (materials (with_added ks added w)) with (materials w).
      change (animated_fcurves (with_added ks added w) m)
        with (animated_fcurves w m).
      destruct (materials w !! m) as [mat|].
      2: { exists (Raise ReferenceError), []. by rewrite app_nil_r. }
      destruct (extract_fcurves_exact ks m (animated_fcurves w m) seen added w Hinv)
        as (seen1 & more1 & Hloop & Hinv1 & Hsound1 & Hcomp1).
      by exists (Return seen1), more1. }
    destruct Hstep as (r1 & more1 & Hstep & Hsound1 & Hpost1).
    rewrite Hstep. destruct r1 as [seen1|e].
    + destruct Hpost1 as [Hinv1 Hcomp1].
      destruct (IH seen1 (added ++ more1) Hinv1)
        as (r & more2 & Hrest & Hsound2 & Hcomp2).
      exists r, (more1 ++ more2). rewrite app_assoc. split; [done|]. split.
      * apply Forall_app. split.
        -- eapply Forall_impl; [exact Hsound1|]. intros p (fcu & Hin & Hpts & ->).
           exists m, fcu. split; [apply list_elem_of_here|done].
        -- eapply Forall_impl; [exact Hsound2|]. intros p (m' & fcu & Hm' & Hrest').
           exists m', fcu. split; [by apply list_elem_of_further|done].
      * intros Hlive. inversion Hlive as [|? ? _ Hlive']; subst.
        destruct (Hcomp2 Hlive') as (seen' & -> & Hinv' & Hcomp').
        exists seen'. split; [done|]. split; [done|].
        intros m' fcu [->|Hin]%elem_of_cons Hfcu Hpts.
        -- destruct Hinv1 as [_ Hs1], Hinv' as [_ Hs'].
           apply Hs'. rewrite fmap_app. apply elem_of_app. left.
           by apply Hs1, Hcomp1.
        -- by apply Hcomp'.
    + exists (Raise e), more1. split; [done|]. split.
      * eapply Forall_impl; [exact Hsound1|]. intros p (fcu & Hin & Hpts & ->).
        exists m, fcu. split; [apply list_elem_of_here|done].
      * intros Hlive. inversion Hlive as [|? ? [mat Hmat] _]; subst. congruence.
Qed.

(** What discovery leaves in a world whose keying set [ks] is empty. *)
Lemma extract_rest_exact (ks : nat) (w : World) :
  exists r added,
    extract_rest ks w = (r, with_added ks added w) /\
    Forall (fun p => exists m fcu,
              m ∈ candidates w /\ fcu ∈ animated_fcurves w m /\
              keyframe_points fcu <> [] /\ p = entry_of m fcu) added /\
    (Forall (fun m => is_Some (materials w !! m)) (candidates w) ->
     r = Return (length (paths_of ks (with_added ks added w))) /\
     forall m fcu, m ∈ candidates w -> fcu ∈ animated_fcurves w m ->
       keyframe_points fcu <> [] ->
       key_of (entry_of m fcu) ∈ key_of <$> added).
Proof.
  assert (Hinv : seen_inv ∅ []).
  { split; [constructor|]. intros k. simpl. rewrite elem_of_nil. set_solver. }
  destruct (extract_materials_exact ks (candidates w) ∅ [] w Hinv)
    as (r & added & Hloop & Hsound & Hcomp).
  rewrite with_added_nil in Hloop. simpl in Hloop.
  change (extract_rest ks w) with
    ((for_fold (candidates w) ∅ (extract_material ks) ;;;
      gets (fun w => length (paths_of ks w))) w).
  unfold bind. rewrite Hloop. destruct r as [seen|e].
  - eexists _, added. split; [reflexivity|]. split; [done|].
    intros Hlive. split; [done|].
    destruct (Hcomp Hlive) as (seen' & [= <-] & [_ Hs] & Hall).
    intros m fcu Hm Hfcu Hpts. by apply Hs, Hall.
  - exists (Raise e), added. split; [done|]. split; [done|].
    intros Hlive. by destruct (Hcomp Hlive) as (seen' & ? & _).
Qed.

(** X14: Discovery finds exactly the animated f-curves of the candidates.  Every
    entry of the rebuilt keying set is the entry of an f-curve with
    keyframes of a candidate material: its owner is that material, its path
    is the path of the f-curve under the [node_tree.] marker, its index is
    the index of the f-curve.  When every candidate is live, discovery
    returns the number of entries, and every f-curve with keyframes of every
    candidate has its (owner name, path, index) among the entries. *)
Theorem extract_discovers_exactly (w : World) (ks_name : string) :
  let r := extract_shader_keying_set ks_name w in
  exists ks k,
    keying_sets_find ks_name (keying_sets r.2) = Some ks /\
    keying_sets r.2 !! ks = Some k /\
    (forall p, p ∈ KeyingSet_paths k ->
       exists m fcu,
         m ∈ candidates w /\ fcu ∈ animated_fcurves w m /\
         keyframe_points fcu <> [] /\ p = entry_of m fcu) /\
    (Forall (fun m => is_Some (materials w !! m)) (candidates w) ->
     r.1 = Return (length (KeyingSet_paths k)) /\
     forall m fcu, m ∈ candidates w -> fcu ∈ animated_fcurves w m ->
       keyframe_points fcu <> [] ->
       key_of (entry_of m fcu) ∈ key_of <$> KeyingSet_paths k).
Proof.
  cbv zeta. rewrite extract_split.
  destruct (extract_prepare_spec ks_name w) as (ks & P & Hprep & Hfind & Hlook & _).
  assert (HP : materials P = materials w /\ candidates P = candidates w).
  { revert Hprep. unfold extract_prepare. mred.
    destruct (keying_sets_find ks_name (keying_sets w)); by intros [= _ <-]. }
  destruct HP as [Hmat Hcand].
  assert (Hanim : forall m, animated_fcurves P m = animated_fcurves w m).
  { intros m. unfold animated_fcurves. by rewrite Hmat. }
  destruct (extract_rest_exact ks P) as (r & added & Hrest & Hsound & Hcomp).
  unfold bind. rewrite Hprep, Hrest. simpl.
  assert (Hk : keying_sets (with_added ks added P) !! ks =
               Some (add_paths added
                       {| KeyingSet_name := ks_name; KeyingSet_paths := [] |})).
  { unfold with_added; simpl. by rewrite list_lookup_alter_eq, Hlook. }
  exists ks, (add_paths added {| KeyingSet_name := ks_name; KeyingSet_paths := [] |}).
  split; [unfold with_added; simpl; by rewrite keying_sets_find_alter|].
  split; [exact Hk|]. simpl. split.
  - intros p Hp. rewrite Forall_forall in Hsound.
    destruct (Hsound p Hp) as (m & fcu & Hm & Hfcu & Hrest').
    exists m, fcu. by rewrite <- Hcand, <- Hanim.
  - rewrite <- Hcand, <- Hmat. intros Hlive.
    destruct (Hcomp Hlive) as [-> Hall]. split.
    + unfold paths_of. by rewrite Hk.
    + intros m fcu Hm Hfcu. apply Hall; [done|]. by rewrite Hanim.
Qed.

(** ** Discovery, then replay *)

Lemma drop_marker (s : string) : Py.drop (Py.len NODE_TREE) (NODE_TREE +:+ s) = s.
Proof. apply drop_app. Qed.

(** An entry discovery makes of an f-curve that resolves can take a
    value-record, and the one replay commits is on the node tree, without
    index. *)
Lemma entry_of_keyable (w w' : World) (m : string) (fcu : FCurve) :
  materials w' = materials w ->
  fcurve_resolves w m fcu ->
  keyable w' (entry_of m fcu).
Proof.
  intros Hmat. unfold fcurve_resolves, keyable, entry_of.
  cbn [path_id data_path array_index]. rewrite Hmat.
  destruct (materials w !! m) as [mat|]; [|done].
  rewrite startswith_app, drop_marker.
  by destruct (node_tree mat).
Qed.

Lemma keyframe_of_entry_of (frame : Z) (m : string) (fcu : FCurve) :
  keyframe_of frame (entry_of m fcu) =
    {| kf_on := OnNodeTree m; kf_data_path := fcu_data_path fcu;
       kf_index := None; kf_frame := frame |}.
Proof.
  unfold keyframe_of, entry_of. cbn [path_id data_path array_index].
  by rewrite startswith_app, drop_marker.
Qed.

(** X15: Replaying the keying set that discovery has just rebuilt: when every
    candidate is live and every f-curve with keyframes resolves on its node
    tree, replay returns the count discovery returned and commits that many
    value-records, each on a node tree, at the path of its f-curve, at the
    time cursor and without index, whatever the index of the f-curve is. *)
Theorem extract_then_apply (w : World) (ks_name : string) :
  Forall (fun m => is_Some (materials w !! m)) (candidates w) ->
  Forall (fun m =>
            Forall (fun fcu => keyframe_points fcu <> [] -> fcurve_resolves w m fcu)
              (animated_fcurves w m))
    (candidates w) ->
  let r := extract_shader_keying_set ks_name w in
  exists n new,
    r.1 = Return n /\
    apply_shader_keying_set ks_name r.2 =
      (Return n, set_keyframes (keyframes w ++ new) r.2) /\
    length new = n /\
    Forall (fun kf => exists m fcu,
              fcu ∈ animated_fcurves w m /\
              kf = {| kf_on := OnNodeTree m; kf_data_path := fcu_data_path fcu;
                      kf_index := None; kf_frame := frame_current w |}) new.
Proof.
  intros Hlive Hres0.
  assert (Hres : forall m fcu, m ∈ candidates w -> fcu ∈ animated_fcurves w m ->
            keyframe_points fcu <> [] -> fcurve_resolves w m fcu).
  { intros m fcu Hm Hfcu. rewrite Forall_forall in Hres0.
    specialize (Hres0 m Hm). rewrite Forall_forall in Hres0. by apply Hres0. }
  cbv zeta. rewrite extract_split.
  destruct (extract_prepare_spec ks_name w) as (ks & P & Hprep & Hfind & Hlook & _).
  assert (HP : materials P = materials w /\ candidates P = candidates w /\
               keyframes P = keyframes w /\ frame_current P = frame_current w).
  { revert Hprep. unfold extract_prepare. mred.
    destruct (keying_sets_find ks_name (keying_sets w)); by intros [= _ <-]. }
  destruct HP as (Hmat & Hcand & Hkf & Hfr).
  assert (Hanim : forall m, animated_fcurves P m = animated_fcurves w m).
  { intros m. unfold animated_fcurves. by rewrite Hmat. }
  destruct (extract_rest_exact ks P) as (r & added & Hrest & Hsound & Hcomp).
  rewrite Hcand, Hmat in Hcomp. destruct (Hcomp Hlive) as [-> _].
  assert (Hrun : (ks <- extract_prepare ks_name ;; extract_rest ks) w =
                 (Return (length (paths_of ks (with_added ks added P))),
                  with_added ks added P)).
  { unfold bind. by rewrite Hprep, Hrest. }
  rewrite Hrun. cbn [fst snd].
  assert (Hpaths : paths_of ks (with_added ks added P) = added).
  { unfold paths_of, with_added; simpl. by rewrite list_lookup_alter_eq, Hlook. }
  assert (Hsound' : Forall (fun p => exists m fcu,
                      fcu ∈ animated_fcurves w m /\ fcurve_resolves w m fcu /\
                      p = entry_of m fcu) added).
  { eapply Forall_impl; [exact Hsound|]. intros p (m & fcu & Hm & Hfcu & Hpts & ->).
    rewrite Hcand in Hm. rewrite Hanim in Hfcu. exists m, fcu.
    split; [done|]. split; [by apply Hres|done]. }
  exists (length added), (keyframe_of (frame_current w) <$> added).
  rewrite Hpaths. split; [done|]. split; [|split].
  - unfold apply_shader_keying_set. mred.
    change (keying_sets (with_added ks added P))
      with (alter (add_paths added) ks (keying_sets P)).
    rewrite keying_sets_find_alter, Hfind by done. mred. rewrite Hpaths.
    rewrite apply_paths_keyable.
    + change (frame_current (with_added ks added P)) with (frame_current P).
      change (keyframes (with_added ks added P)) with (keyframes P).
      by rewrite Hfr, Hkf.
    + eapply Forall_impl; [exact Hsound'|]. intros p (m & fcu & _ & Hr & ->).
      by apply (entry_of_keyable w).
  - apply length_fmap.
  - apply Forall_fmap. eapply Forall_impl; [exact Hsound'|].
    intros p (m & fcu & Hfcu & _ & ->). exists m, fcu. split; [done|].
    apply keyframe_of_entry_of.
Qed.

(** ** The operators *)

Lemma lstrip_blank (s : string) : blank s = true -> Py.lstrip s = EmptyString.
Proof.
  induction s as [|c s IH]; [done|]. simpl.
  destruct (Py.isspace c); [exact IH|done].
Qed.

Lemma lstrip_head (s : string) :
  match Py.lstrip s with
  | EmptyString => blank s = true
  | String c _ => Py.isspace c = false
  end.
Proof.
  induction s as [|c s IH]; [done|]. simpl.
  destruct (Py.isspace c) eqn:Hc; [exact IH|]. simpl. exact Hc.
Qed.

Lemma rstrip_empty (s : string) :
  Py.rstrip s = EmptyString -> blank s = true.
Proof.
  induction s as [|c s IH]; [done|]. simpl.
  destruct (Py.rstrip s) as [|c' r]; [|done].
  destruct (Py.isspace c); [intros _; by apply IH|done].
Qed.

(** [strip] gives the empty string for the strings of whitespace, and for
    no other. *)
Lemma strip_blank (s : string) : Py.strip s = EmptyString <-> blank s = true.
Proof.
  unfold Py.strip. split.
  - intros Hs. apply rstrip_empty in Hs.
    pose proof (lstrip_head s) as Hhead.
    destruct (Py.lstrip s) as [|c t]; [done|].
    simpl in Hs. by rewrite Hhead in Hs.
  - intros Hs. by rewrite (lstrip_blank s Hs).
Qed.

Lemma extract_named_set (ks_name : string) (w : World) :
  exists ks,
    keying_sets_find ks_name (keying_sets (extract_shader_keying_set ks_name w).2)
      = Some ks /\
    keying_sets_active (extract_shader_keying_set ks_name w).2 = Some ks.
Proof.
  rewrite extract_split.
  destruct (extract_prepare_shape ks_name w) as (ks & L & Hprep & Hfind & _).
  destruct (extract_rest_spec ks (set_keying_sets_active (Some ks) (set_keying_sets L w)))
    as (r & added & Hrest & _).
  unfold bind. rewrite Hprep, Hrest. simpl. exists ks. split; [|done].
  by rewrite keying_sets_find_alter.
Qed.

(** X16: [KS_OT_ExtractShader.execute]: a name of whitespace only (or empty) is
    rejected with an error report, the operator cancels and no keying set is
    made or cleared; any other name is stripped of the whitespace around it,
    and after the operator the scene has a keying set of the stripped name,
    which is the active one. *)
Theorem extract_operator_name (s : Session) :
  (blank (ks_new_shader_set s) = true ->
   KS_OT_ExtractShader_execute s =
     (Return CANCELLED,
      with_world
        (set_reports (reports (world s) ++ [(ERROR, "Enter a Keying Set name")])
           (world s)) s)) /\
  (blank (ks_new_shader_set s) = false ->
   let s' := (KS_OT_ExtractShader_execute s).2 in
   exists ks,
     keying_sets_find (Py.strip (ks_new_shader_set s)) (keying_sets (world s'))
       = Some ks /\
     keying_sets_active (world s') = Some ks /\
     ks_new_shader_set s' = ks_new_shader_set s /\
     ks_preset_name s' = ks_preset_name s).
Proof.
  unfold KS_OT_ExtractShader_execute. split.
  - intros Hblank. apply strip_blank in Hblank. rewrite Hblank. reflexivity.
  - intros Hblank. cbv zeta.
    destruct (Py.strip (ks_new_shader_set s)) as [|c name] eqn:Hname.
    { apply strip_blank in Hname. congruence. }
    cbn [Py.truthy negb]. unfold run, bind.
    destruct (extract_named_set (String c name) (world s)) as (ks & Hfind & Hact).
    destruct (extract_shader_keying_set (String c name) (world s)) as [[cnt|e] w'];
      simpl in *; by exists ks.
Qed.

(** X17: [KS_OT_SavePreset.execute] on success: the preset is stored under the
    name stripped of the whitespace around it, the text field of the name is
    cleared, and the report quotes the stored name. *)
Theorem save_operator_success (s : Session) (ks : nat) (vs : list value) (js : string) :
  let w := world s in
  let sn := Py.strip (ks_preset_name s) in
  keying_sets_find (Py.strip (ks_apply_shader_set w)) (keying_sets w) = Some ks ->
  blank (ks_preset_name s) = false ->
  live_values w (paths_of ks w) vs ->
  json_dumps (zip_with record_of (paths_of ks w) vs) = Some js ->
  exists s',
    KS_OT_SavePreset_execute s = (Return FINISHED, s') /\
    ks_preset_name s' = EmptyString /\
    ks_new_shader_set s' = ks_new_shader_set s /\
    shader_presets (world s') =
      shader_presets w ++ [{| name := sn; values_json := js |}] /\
    shader_preset_index (world s') = Z.of_nat (length (shader_presets w)) /\
    reports (world s') = reports w ++ [(INFO, "Preset '" +:+ sn +:+ "' saved")].
Proof.
  intros w sn Hks Hblank Hlive Hjs. subst w sn.
  assert (Hname : Py.strip (ks_preset_name s) <> EmptyString).
  { intros Hs. apply strip_blank in Hs. congruence. }
  unfold KS_OT_SavePreset_execute, run at 1.
  rewrite (save_current_preset_live _ _ _ _ _ Hks Hname Hlive Hjs).
  eexists; split; [reflexivity|]. simpl. repeat split.
  rewrite length_app; simpl. lia.
Qed.

(** X18: [KS_OT_SavePreset.execute] on a validation failure (no keying set of
    the chosen name, or a preset name of whitespace only): the operator
    cancels with an error report; the store, its index and the text field of
    the name are as before. *)
Theorem save_operator_cancelled (s : Session) :
  keying_sets_find (Py.strip (ks_apply_shader_set (world s))) (keying_sets (world s))
    = None \/
  blank (ks_preset_name s) = true ->
  exists msg,
    KS_OT_SavePreset_execute s =
      (Return CANCELLED,
       with_world (set_reports (reports (world s) ++ [(ERROR, msg)]) (world s)) s).
Proof.
  intros Hfail. unfold KS_OT_SavePreset_execute, run at 1, save_current_preset. mred.
  destruct (keying_sets_find _ _) as [ks|] eqn:Hks.
  - destruct Hfail as [|Hblank]; [done|].
    apply strip_blank in Hblank. rewrite Hblank. simpl. by eexists.
  - simpl. by eexists.
Qed.

(** X19: With the active index outside the store (as it is for every index when
    the store is empty) [KS_OT_ApplyPreset.execute] cancels with an error
    report and [KS_OT_RemovePreset.execute] cancels without one; neither
    changes anything else. *)
Theorem preset_operators_out_of_range (w : World) :
  shader_preset_index w < 0 \/
  Z.of_nat (length (shader_presets w)) <= shader_preset_index w ->
  KS_OT_ApplyPreset_execute w =
    (Return CANCELLED,
     set_reports (reports w ++ [(ERROR, "Failed to apply preset")]) w) /\
  KS_OT_RemovePreset_execute w = (Return CANCELLED, w).
Proof.
  intros Hidx.
  assert (Hguard : (shader_preset_index w <? 0)
                   || (Z.of_nat (length (shader_presets w)) <=? shader_preset_index w)
                   = true).
  { apply orb_true_iff. destruct Hidx; [left|right]; lia. }
  split.
  - unfold KS_OT_ApplyPreset_execute, apply_shader_preset. mred.
    rewrite Hguard. reflexivity.
  - unfold KS_OT_RemovePreset_execute. mred. rewrite Hguard. reflexivity.
Qed.

(** X20: [KS_OT_ApplyPreset.execute] on a preset without a record of the socket
    kind on a live owner: the operator finishes, the value-records of the
    records that can be keyed are committed, and the report quotes the name
    of the preset. *)
Theorem apply_preset_operator_reports (w : World) (item : ShaderPresetItem)
    (entries : list Entry) :
  0 <= shader_preset_index w ->
  shader_presets w !! Z.to_nat (shader_preset_index w) = Some item ->
  json_loads (values_json item) = Some entries ->
  Forall (fun entry =>
            materials w !! e_material entry = None \/ socket_kind entry = false)
    entries ->
  KS_OT_ApplyPreset_execute w =
    (Return FINISHED,
     set_reports (reports w ++ [(INFO, "Applied '" +:+ name item +:+ "'")])
       (set_keyframes
          (keyframes w ++ omap (fallback_commit w (frame_current w)) entries) w)).
Proof.
  intros Hidx Hitem Hloads Hall. unfold KS_OT_ApplyPreset_execute. mred.
  rewrite (apply_entries_fallback_preset w _ item entries Hidx Hitem Hloads Hall).
  mred. simpl. rewrite Hitem. reflexivity.
Qed.

(** X21: Discovery with nothing to look at (no material among the selected
    datablocks and none in a slot of a selected object) returns 0 and leaves
    the keying set of the given name without entries: a keying set that was
    there loses the entries it had. *)
Theorem extract_nothing_selected (w : World) (ks_name : string) :
  candidates w = [] ->
  let r := extract_shader_keying_set ks_name w in
  exists ks,
    r.1 = Return O /\
    keying_sets_find ks_name (keying_sets r.2) = Some ks /\
    paths_of ks r.2 = [].
Proof.
  intros Hnone. cbv zeta. rewrite extract_split.
  destruct (extract_prepare_spec ks_name w) as (ks & P & Hprep & Hfind & Hlook & _).
  assert (Hcand : candidates P = candidates w).
  { revert Hprep. unfold extract_prepare. mred.
    destruct (keying_sets_find ks_name (keying_sets w)); by intros [= _ <-]. }
  destruct (extract_rest_exact ks P) as (r & added & Hrest & Hsound & Hcomp).
  rewrite Hcand, Hnone in Hsound, Hcomp.
  assert (Hadded : added = []).
  { destruct added as [|p added]; [done|].
    apply Forall_cons in Hsound as [(m & fcu & Hm & _) _].
    by apply elem_of_nil in Hm. }
  subst added. destruct (Hcomp (Forall_nil_2 _)) as [-> _].
  rewrite with_added_nil in *.
  assert (Hpaths : paths_of ks P = []) by (unfold paths_of; by rewrite Hlook).
  unfold bind. rewrite Hprep, Hrest. simpl. exists ks.
  by rewrite Hpaths.
Qed.

End Verification.

(** * The theorems on the sample worlds *)

(** Closed goals about the sample worlds, by evaluation. *)
Ltac evaluate :=
  repeat first
    [ progress unfold live_values, captures
    | split
    | apply Forall2_nil | apply Forall2_cons
    | apply Forall_nil | apply Forall_cons
    | (vm_compute; reflexivity)
    | (vm_compute; eexists; reflexivity) ].

(** The hypotheses of C1 hold of the keying set [KS] of [w_demo], whose
    entries have the live values 5 and 3. *)
Lemma capture_restore_roundtrip_witness :
  keying_sets_find (Py.strip (ks_apply_shader_set w_demo)) (keying_sets w_demo)
    = Some 1%nat /\
  "P" <> EmptyString /\
  live_values w_demo (paths_of 1 w_demo) [5; 3] /\
  json_dumps (zip_with record_of (paths_of 1 w_demo) [5; 3]) = Some js_demo /\
  json_loads js_demo = Some (zip_with record_of (paths_of 1 w_demo) [5; 3]) /\
  exists item w1,
    save_current_preset "P" w_demo = (Return (Some item, None), w1) /\
    shader_presets w1 !! Z.to_nat (shader_preset_index w1) = Some item /\
    let w2 := (apply_shader_preset (shader_preset_index w1) w1).2 in
    paths_of 1 w2 = paths_of 1 w_demo /\
    live_values w2 (paths_of 1 w2) [5; 3].
Proof.
  assert (H1 : keying_sets_find (Py.strip (ks_apply_shader_set w_demo))
                 (keying_sets w_demo) = Some 1%nat) by (vm_compute; reflexivity).
  assert (H2 : "P" <> EmptyString) by discriminate.
  assert (H3 : live_values w_demo (paths_of 1 w_demo) [5; 3]) by evaluate.
  assert (H4 : json_dumps (zip_with record_of (paths_of 1 w_demo) [5; 3])
               = Some js_demo) by (vm_compute; reflexivity).
  assert (H5 : json_loads js_demo
               = Some (zip_with record_of (paths_of 1 w_demo) [5; 3]))
    by (vm_compute; reflexivity).
  repeat (split; [assumption|]).
  exact (capture_restore_roundtrip w_demo "P" 1%nat [5; 3] js_demo H1 H2 H3 H4 H5).
Defined.

(** The entries of [KS] in [w_demo] can take a value-record. *)
Lemma apply_shader_keying_set_commits_witness :
  keying_sets_find "KS" (keying_sets w_demo) = Some 1%nat /\
  Forall (keyable w_demo) (paths_of 1 w_demo) /\
  exists new,
    apply_shader_keying_set "KS" w_demo =
      (Return (length (paths_of 1 w_demo)),
       set_keyframes (keyframes w_demo ++ new) w_demo) /\
    new = (keyframe_of (frame_current w_demo) <$> paths_of 1 w_demo) /\
    length new = length (paths_of 1 w_demo) /\
    Forall (fun kf => kf_frame kf = frame_current w_demo) new.
Proof.
  assert (H1 : keying_sets_find "KS" (keying_sets w_demo) = Some 1%nat)
    by (vm_compute; reflexivity).
  assert (H2 : Forall (keyable w_demo) (paths_of 1 w_demo)) by evaluate.
  repeat (split; [assumption|]).
  exact (apply_shader_keying_set_commits w_demo "KS" 1%nat H1 H2).
Defined.

(** C3 as stated fails where the owner of the entries is gone: the keying
    set is there, with two entries, and the call raises instead of returning
    2; no value-record is committed. *)
Lemma apply_shader_keying_set_stale_owner :
  keying_sets_find "KS" (keying_sets w_stale) = Some 1%nat /\
  length (paths_of 1 w_stale) = 2%nat /\
  apply_shader_keying_set "KS" w_stale = (Raise ReferenceError, w_stale) /\
  ~ (exists w', apply_shader_keying_set "KS" w_stale = (Return 2%nat, w')).
Proof.
  assert (H : apply_shader_keying_set "KS" w_stale = (Raise ReferenceError, w_stale))
    by (vm_compute; reflexivity).
  split; [vm_compute; reflexivity|]. split; [vm_compute; reflexivity|].
  split; [exact H|].
  intros [w' Hw']. rewrite H in Hw'. discriminate.
Qed.

(** C4 on the entry [path_socket0] of [KS] in [w_demo], an indirect entry
    whose stored index is 2: the value-record is committed on the node tree
    at the stripped path and the captured frame, with no index passed. *)
Theorem apply_indirect_entry_drops_index :
  paths_of 1 w_demo !! 0%nat = Some path_socket0 /\
  Py.startswith (data_path path_socket0) NODE_TREE = true /\
  array_index path_socket0 = 2 /\
  keyframes (apply_shader_keying_set "KS" w_demo).2 !! 0%nat =
    Some {| kf_on := OnNodeTree "Mat"; kf_data_path := socket0;
            kf_index := None; kf_frame := 12 |}.
Proof. repeat split; vm_compute; reflexivity. Qed.

(** The store of [w_two] has two presets; index 2 is out of range. *)
Lemma apply_shader_preset_out_of_range_witness :
  (2 < 0 \/ Z.of_nat (length (shader_presets w_two)) <= 2) /\
  apply_shader_preset 2 w_two = (Return false, w_two).
Proof.
  assert (H : 2 < 0 \/ Z.of_nat (length (shader_presets w_two)) <= 2)
    by (right; vm_compute; discriminate).
  split; [exact H|].
  exact (apply_shader_preset_out_of_range w_two 2 H).
Defined.

(** C6 on the preset of [w_gone]: the index is in range and the text
    decodes, the first record is of the socket kind and its socket is not in
    the node tree; the call raises instead of returning [True], and the
    second record, which the owner could key, is not restored. *)
Theorem apply_shader_preset_socket_gone :
  (exists item,
     shader_presets w_gone !! 0%nat = Some item /\
     json_loads (values_json item) = Some data_gone) /\
  keyable w_gone
    {| path_id := "Mat"; data_path := "diffuse_color"; array_index := 0 |} /\
  apply_shader_preset 0 w_gone = (Raise ValueError, w_gone).
Proof.
  split; [|split].
  - eexists; split; vm_compute; reflexivity.
  - evaluate.
  - vm_compute; reflexivity.
Qed.

(** Both validation failures of C5: no keying set is chosen in [w_two];
    [KS] is chosen in [w_demo] and the preset name is empty. *)
Lemma save_current_preset_validation_witness :
  save_current_preset "P" w_two =
    (Return (None, Some "Select a valid Keying Set first"), w_two) /\
  save_current_preset EmptyString w_demo =
    (Return (None, Some "Enter a preset name"), w_demo).
Proof.
  split.
  - apply (proj1 (save_current_preset_validation w_two "P")).
    vm_compute; reflexivity.
  - apply (proj2 (save_current_preset_validation w_demo EmptyString)).
    + vm_compute. eexists; reflexivity.
    + reflexivity.
Defined.

(** The active index of [w_two] is inside its store. *)
Lemma remove_preset_reclamps_witness :
  0 <= shader_preset_index w_two < Z.of_nat (length (shader_presets w_two)) /\
  exists w',
    KS_OT_RemovePreset_execute w_two = (Return FINISHED, w') /\
    shader_presets w' =
      delete (Z.to_nat (shader_preset_index w_two)) (shader_presets w_two) /\
    S (length (shader_presets w')) = length (shader_presets w_two) /\
    shader_preset_index w' =
      Z.min (shader_preset_index w_two) (Z.of_nat (length (shader_presets w')) - 1) /\
    (shader_preset_index w' = -1 <-> shader_presets w' = []) /\
    (shader_preset_index w' = -1 \/
     0 <= shader_preset_index w' <= Z.of_nat (length (shader_presets w')) - 1).
Proof.
  assert (H : 0 <= shader_preset_index w_two
              < Z.of_nat (length (shader_presets w_two)))
    by (vm_compute; split; [discriminate | reflexivity]).
  split; [exact H|].
  exact (remove_preset_reclamps w_two H).
Defined.

(** The three keying sets of [w_demo], of 0, 2 and 1 entries, resolve and
    serialize. *)
Lemma batch_collect_all_sets_witness :
  Forall2 (captures w_demo) (keying_sets w_demo) caps_demo /\
  exists w',
    KS_OT_BatchCollect_execute w_demo = (Return FINISHED, w') /\
    shader_presets w' =
      shader_presets w_demo ++ zip_with preset_of (keying_sets w_demo) caps_demo.*2 /\
    length (shader_presets w') =
      (length (shader_presets w_demo) + length (keying_sets w_demo))%nat /\
    shader_preset_index w' = Z.of_nat (length (shader_presets w')) - 1 /\
    reports w' =
      reports w_demo ++
        [(INFO, "Collected " +:+ pretty (length (keying_sets w_demo)) +:+ " presets")] /\
    materials w' = materials w_demo /\ keying_sets w' = keying_sets w_demo /\
    keyframes w' = keyframes w_demo.
Proof.
  assert (H : Forall2 (captures w_demo) (keying_sets w_demo) caps_demo) by evaluate.
  split; [exact H|].
  exact (batch_collect_all_sets w_demo caps_demo H).
Defined.

(** C9 as stated fails where the owner of the entries is gone: the scene
    has three keying sets, and the operator raises at the first entry it
    cannot resolve, after one preset instead of three, without setting the
    active index and without a report. *)
Lemma batch_collect_stale_owner :
  length (keying_sets w_stale) = 3%nat /\
  (KS_OT_BatchCollect_execute w_stale).1 = Raise ReferenceError /\
  length (shader_presets (KS_OT_BatchCollect_execute w_stale).2) = 1%nat /\
  shader_preset_index (KS_OT_BatchCollect_execute w_stale).2 = 0 /\
  reports (KS_OT_BatchCollect_execute w_stale).2 = [].
Proof. repeat split; vm_compute; reflexivity. Qed.

(** The scene of [w_two] has no keying set. *)
Lemma batch_collect_no_sets_witness :
  keying_sets w_two = [] /\
  exists w',
    KS_OT_BatchCollect_execute w_two = (Return FINISHED, w') /\
    shader_presets w' = shader_presets w_two /\
    shader_preset_index w' = Z.of_nat (length (shader_presets w_two)) - 1 /\
    (shader_presets w_two = [] -> shader_preset_index w' = -1) /\
    (forall p, last (shader_presets w_two) = Some p ->
       shader_presets w' !! Z.to_nat (shader_preset_index w') = Some p) /\
    reports w' = reports w_two ++ [(INFO, "Collected 0 presets")].
Proof.
  assert (H : keying_sets w_two = []) by reflexivity.
  split; [exact H|].
  exact (batch_collect_no_sets w_two H).
Defined.

(** * The further properties on the sample worlds *)

(** No keying set is chosen in [w_two]. *)
Lemma apply_shader_operator_nothing_to_apply_witness :
  (keying_sets_find (Py.strip (ks_apply_shader_set w_two)) (keying_sets w_two) = None \/
   (exists ks,
      keying_sets_find (Py.strip (ks_apply_shader_set w_two)) (keying_sets w_two)
        = Some ks /\ paths_of ks w_two = [])) /\
  KS_OT_ApplyShader_execute w_two =
    (Return CANCELLED,
     set_reports
       (reports w_two ++
          [(ERROR, "No keys from '" +:+ Py.strip (ks_apply_shader_set w_two) +:+ "'")])
       w_two).
Proof.
  assert (H : keying_sets_find (Py.strip (ks_apply_shader_set w_two)) (keying_sets w_two)
              = None \/
              (exists ks,
                 keying_sets_find (Py.strip (ks_apply_shader_set w_two))
                   (keying_sets w_two) = Some ks /\ paths_of ks w_two = []))
    by (left; vm_compute; reflexivity).
  split; [exact H|].
  exact (apply_shader_operator_nothing_to_apply w_two H).
Defined.

(** In the keying set [Mixed] of [w_mixed] the second entry cannot take a
    value-record. *)
Lemma apply_shader_keying_set_partial_witness :
  keying_sets_find "Mixed" (keying_sets w_mixed) = Some 2%nat /\
  paths_of 2 w_mixed = [path_socket0] ++ path_gone :: [path_color] /\
  Forall (keyable w_mixed) [path_socket0] /\
  ~ keyable w_mixed path_gone /\
  exists e,
    apply_shader_keying_set "Mixed" w_mixed =
      (Raise e,
       set_keyframes
         (keyframes w_mixed ++ (keyframe_of (frame_current w_mixed) <$> [path_socket0]))
         w_mixed).
Proof.
  assert (H1 : keying_sets_find "Mixed" (keying_sets w_mixed) = Some 2%nat)
    by (vm_compute; reflexivity).
  assert (H2 : paths_of 2 w_mixed = [path_socket0] ++ path_gone :: [path_color])
    by reflexivity.
  assert (H3 : Forall (keyable w_mixed) [path_socket0]) by evaluate.
  assert (H4 : ~ keyable w_mixed path_gone) by (vm_compute; intros [x Hx]; discriminate).
  repeat (split; [assumption|]).
  exact (apply_shader_keying_set_partial w_mixed "Mixed" 2%nat
           [path_socket0] [path_color] path_gone H1 H2 H3 H4).
Defined.

(** The entries of the chosen keying set of [w_stale] do not resolve. *)
Lemma save_current_preset_unresolved_witness :
  keying_sets_find (Py.strip (ks_apply_shader_set w_stale)) (keying_sets w_stale)
    = Some 1%nat /\
  "P" <> EmptyString /\
  Exists (fun path => exists e, live_value w_stale path = Raise e) (paths_of 1 w_stale) /\
  exists e, save_current_preset "P" w_stale = (Raise e, w_stale).
Proof.
  assert (H1 : keying_sets_find (Py.strip (ks_apply_shader_set w_stale))
                 (keying_sets w_stale) = Some 1%nat) by (vm_compute; reflexivity).
  assert (H2 : "P" <> EmptyString) by discriminate.
  assert (H3 : Exists (fun path => exists e, live_value w_stale path = Raise e)
                 (paths_of 1 w_stale)).
  { apply Exists_cons_hd. exists ReferenceError. vm_compute; reflexivity. }
  repeat (split; [assumption|]).
  exact (save_current_preset_unresolved w_stale "P" 1%nat H1 H2 H3).
Defined.

(** The entry of [KS] in [w_color] resolves to an array, which the codec
    does not serialize. *)
Lemma save_current_preset_dumps_raises_witness :
  keying_sets_find (Py.strip (ks_apply_shader_set w_color)) (keying_sets w_color)
    = Some 0%nat /\
  "P" <> EmptyString /\
  live_values w_color (paths_of 0 w_color) [PyArray [1; 1; 1; 1]] /\
  json_dumps (zip_with record_of (paths_of 0 w_color) [PyArray [1; 1; 1; 1]]) = None /\
  save_current_preset "P" w_color =
    (Raise TypeError,
     set_shader_presets
       (shader_presets w_color ++ [{| name := "P"; values_json := EmptyString |}])
       w_color).
Proof.
  assert (H1 : keying_sets_find (Py.strip (ks_apply_shader_set w_color))
                 (keying_sets w_color) = Some 0%nat) by (vm_compute; reflexivity).
  assert (H2 : "P" <> EmptyString) by discriminate.
  assert (H3 : live_values w_color (paths_of 0 w_color) [PyArray [1; 1; 1; 1]])
    by evaluate.
  assert (H4 : json_dumps (zip_with record_of (paths_of 0 w_color)
                             [PyArray [1; 1; 1; 1]]) = None)
    by (vm_compute; reflexivity).
  repeat (split; [assumption|]).
  exact (save_current_preset_dumps_raises w_color "P" 0%nat _ H1 H2 H3 H4).
Defined.

(** The preset of [w_junk] has no text. *)
Lemma apply_shader_preset_undecodable_witness :
  0 <= 0 /\
  shader_presets w_junk !! Z.to_nat 0 =
    Some {| name := "P"; values_json := EmptyString |} /\
  json_loads (values_json {| name := "P"; values_json := EmptyString |})
    = @None (list (Entry Z)) /\
  apply_shader_preset 0 w_junk = (Raise ValueError, w_junk).
Proof.
  assert (H1 : 0 <= 0) by lia.
  assert (H2 : shader_presets w_junk !! Z.to_nat 0 =
               Some {| name := "P"; values_json := EmptyString |}) by reflexivity.
  assert (H3 : json_loads (values_json {| name := "P"; values_json := EmptyString |})
               = @None (list (Entry Z))) by (vm_compute; reflexivity).
  repeat (split; [assumption|]).
  exact (apply_shader_preset_undecodable w_junk 0 _ H1 H2 H3).
Defined.

(** The preset of [w_sock] holds the value 9 for the socket [socket0] of
    [Mat], whose value is 5. *)
Lemma apply_shader_preset_socket_witness :
  0 <= 0 /\
  shader_presets w_sock !! Z.to_nat 0 =
    Some {| name := "S"; values_json := JsonZ.dumps data_sock |} /\
  json_loads (values_json {| name := "S"; values_json := JsonZ.dumps data_sock |}) =
    Some [{| e_material := "Mat";
             e_data_path := NODE_TREE +:+ base0 +:+ DEFAULT_VALUE; e_value := 9 |}] /\
  materials w_sock !! "Mat" = Some mat_demo /\
  node_tree mat_demo = Some tree_demo /\
  base0 <> EmptyString /\
  nt_values tree_demo !! (base0 +:+ DEFAULT_VALUE) = Some 5 /\
  exists w',
    apply_shader_preset 0 w_sock = (Return true, w') /\
    live_value w'
      {| path_id := "Mat"; data_path := NODE_TREE +:+ base0 +:+ DEFAULT_VALUE;
         array_index := 0 |} = Return 9 /\
    keyframes w' =
      keyframes w_sock ++
        [{| kf_on := OnSocket "Mat" base0; kf_data_path := "default_value";
            kf_index := None; kf_frame := frame_current w_sock |}].
Proof.
  assert (H1 : 0 <= 0) by lia.
  assert (H2 : shader_presets w_sock !! Z.to_nat 0 =
               Some {| name := "S"; values_json := JsonZ.dumps data_sock |})
    by reflexivity.
  assert (H3 : json_loads
                 (values_json {| name := "S"; values_json := JsonZ.dumps data_sock |}) =
               Some [{| e_material := "Mat";
                        e_data_path := NODE_TREE +:+ base0 +:+ DEFAULT_VALUE;
                        e_value := 9 |}]) by (vm_compute; reflexivity).
  assert (H4 : materials w_sock !! "Mat" = Some mat_demo) by (vm_compute; reflexivity).
  assert (H5 : node_tree mat_demo = Some tree_demo) by reflexivity.
  assert (H6 : base0 <> EmptyString) by discriminate.
  assert (H7 : nt_values tree_demo !! (base0 +:+ DEFAULT_VALUE) = Some 5)
    by (vm_compute; reflexivity).
  repeat (split; [assumption|]).
  exact (apply_shader_preset_socket w_sock 0 _ "Mat" base0 9 5 mat_demo tree_demo
           H1 H2 H3 H4 H5 H6 H7).
Defined.

(** The records of the preset of [w_fallback] are of the fallback kind or
    name an owner that is gone. *)
Lemma apply_shader_preset_fallback_only_witness :
  0 <= 0 /\
  shader_presets w_fallback !! Z.to_nat 0 =
    Some {| name := "F"; values_json := JsonZ.dumps data_fallback |} /\
  json_loads (values_json {| name := "F"; values_json := JsonZ.dumps data_fallback |})
    = Some data_fallback /\
  Forall (fun entry =>
            materials w_fallback !! e_material entry = None \/
            socket_kind entry = false) data_fallback /\
  apply_shader_preset 0 w_fallback =
    (Return true,
     set_keyframes
       (keyframes w_fallback ++
          omap (fallback_commit w_fallback (frame_current w_fallback)) data_fallback)
       w_fallback).
Proof.
  assert (H1 : 0 <= 0) by lia.
  assert (H2 : shader_presets w_fallback !! Z.to_nat 0 =
               Some {| name := "F"; values_json := JsonZ.dumps data_fallback |})
    by reflexivity.
  assert (H3 : json_loads
                 (values_json {| name := "F"; values_json := JsonZ.dumps data_fallback |})
               = Some data_fallback) by (vm_compute; reflexivity).
  assert (H4 : Forall (fun entry =>
                         materials w_fallback !! e_material entry = None \/
                         socket_kind entry = false) data_fallback).
  { constructor; [right; vm_compute; reflexivity|].
    constructor; [right; vm_compute; reflexivity|].
    constructor; [left; vm_compute; reflexivity|]. constructor. }
  repeat (split; [assumption|]).
  exact (apply_shader_preset_fallback_only w_fallback 0 _ data_fallback H1 H2 H3 H4).
Defined.

(** A successful save in [w_demo]. *)
Lemma save_current_preset_stores_witness :
  keying_sets_find (Py.strip (ks_apply_shader_set w_demo)) (keying_sets w_demo)
    = Some 1%nat /\
  "P" <> EmptyString /\
  live_values w_demo (paths_of 1 w_demo) [5; 3] /\
  json_dumps (zip_with record_of (paths_of 1 w_demo) [5; 3]) = Some js_demo /\
  exists w',
    save_current_preset "P" w_demo =
      (Return (Some {| name := "P"; values_json := js_demo |}, None), w') /\
    shader_presets w' =
      shader_presets w_demo ++ [{| name := "P"; values_json := js_demo |}] /\
    shader_preset_index w' = Z.of_nat (length (shader_presets w_demo)) /\
    materials w' = materials w_demo /\ keying_sets w' = keying_sets w_demo /\
    keyframes w' = keyframes w_demo /\ reports w' = reports w_demo.
Proof.
  assert (H1 : keying_sets_find (Py.strip (ks_apply_shader_set w_demo))
                 (keying_sets w_demo) = Some 1%nat) by (vm_compute; reflexivity).
  assert (H2 : "P" <> EmptyString) by discriminate.
  assert (H3 : live_values w_demo (paths_of 1 w_demo) [5; 3]) by evaluate.
  assert (H4 : json_dumps (zip_with record_of (paths_of 1 w_demo) [5; 3])
               = Some js_demo) by (vm_compute; reflexivity).
  repeat (split; [assumption|]).
  exact (save_current_preset_stores w_demo "P" 1%nat [5; 3] js_demo H1 H2 H3 H4).
Defined.

(** A successful save in [w_demo], then the removal of the preset. *)
Lemma save_then_remove_preset_witness :
  keying_sets_find (Py.strip (ks_apply_shader_set w_demo)) (keying_sets w_demo)
    = Some 1%nat /\
  "P" <> EmptyString /\
  live_values w_demo (paths_of 1 w_demo) [5; 3] /\
  json_dumps (zip_with record_of (paths_of 1 w_demo) [5; 3]) = Some js_demo /\
  KS_OT_RemovePreset_execute (save_current_preset "P" w_demo).2 =
    (Return FINISHED,
     set_shader_preset_index (Z.of_nat (length (shader_presets w_demo)) - 1) w_demo).
Proof.
  assert (H1 : keying_sets_find (Py.strip (ks_apply_shader_set w_demo))
                 (keying_sets w_demo) = Some 1%nat) by (vm_compute; reflexivity).
  assert (H2 : "P" <> EmptyString) by discriminate.
  assert (H3 : live_values w_demo (paths_of 1 w_demo) [5; 3]) by evaluate.
  assert (H4 : json_dumps (zip_with record_of (paths_of 1 w_demo) [5; 3])
               = Some js_demo) by (vm_compute; reflexivity).
  repeat (split; [assumption|]).
  exact (save_then_remove_preset w_demo "P" 1%nat [5; 3] js_demo H1 H2 H3 H4).
Defined.

(** In [w_mixed] the third keying set has an entry that does not resolve,
    after two keying sets that resolve and serialize. *)
Lemma batch_collect_partial_witness :
  keying_sets w_mixed = [ks_empty; ks_two] ++ ks_mixed :: [ks_one] /\
  Forall2 (captures w_mixed) [ks_empty; ks_two] (take 2 caps_demo) /\
  Exists (fun path => exists e, live_value w_mixed path = Raise e)
    (KeyingSet_paths ks_mixed) /\
  exists e,
    KS_OT_BatchCollect_execute w_mixed =
      (Raise e,
       set_shader_presets
         (shader_presets w_mixed ++
            zip_with preset_of [ks_empty; ks_two] (take 2 caps_demo).*2) w_mixed).
Proof.
  assert (H1 : keying_sets w_mixed = [ks_empty; ks_two] ++ ks_mixed :: [ks_one])
    by reflexivity.
  assert (H2 : Forall2 (captures w_mixed) [ks_empty; ks_two] (take 2 caps_demo))
    by evaluate.
  assert (H3 : Exists (fun path => exists e, live_value w_mixed path = Raise e)
                 (KeyingSet_paths ks_mixed)).
  { apply Exists_cons_tl, Exists_cons_hd. exists ValueError. vm_compute; reflexivity. }
  repeat (split; [assumption|]).
  exact (batch_collect_partial w_mixed [ks_empty; ks_two] [ks_one] ks_mixed
           (take 2 caps_demo) H1 H2 H3).
Defined.

(** The index of a new scene, 0 over an empty store, is in the range the
    operations keep. *)
Lemma index_ok_preserved_witness :
  index_ok w_demo /\
  (forall ks_name, index_ok (extract_shader_keying_set ks_name w_demo).2) /\
  (forall ks_name, index_ok (apply_shader_keying_set ks_name w_demo).2) /\
  (forall preset_name, index_ok (save_current_preset preset_name w_demo).2) /\
  (forall idx, index_ok (apply_shader_preset idx w_demo).2) /\
  index_ok (KS_OT_RemovePreset_execute w_demo).2 /\
  index_ok (KS_OT_BatchCollect_execute w_demo).2.
Proof.
  assert (H : index_ok w_demo) by (vm_compute; split; discriminate).
  split; [exact H|].
  exact (index_ok_preserved w_demo H).
Defined.

(** In [w_demo] the candidate [Mat] is live and its f-curves with keyframes
    resolve. *)
Lemma extract_then_apply_witness :
  Forall (fun m => is_Some (materials w_demo !! m)) (candidates w_demo) /\
  Forall (fun m =>
            Forall (fun fcu => keyframe_points fcu <> [] -> fcurve_resolves w_demo m fcu)
              (animated_fcurves w_demo m))
    (candidates w_demo) /\
  let r := extract_shader_keying_set "New" w_demo in
  exists n new,
    r.1 = Return n /\
    apply_shader_keying_set "New" r.2 =
      (Return n, set_keyframes (keyframes w_demo ++ new) r.2) /\
    length new = n /\
    Forall (fun kf => exists m fcu,
              fcu ∈ animated_fcurves w_demo m /\
              kf = {| kf_on := OnNodeTree m; kf_data_path := fcu_data_path fcu;
                      kf_index := None; kf_frame := frame_current w_demo |}) new.
Proof.
  assert (H1 : Forall (fun m => is_Some (materials w_demo !! m)) (candidates w_demo)).
  { constructor; [vm_compute; eexists; reflexivity|constructor]. }
  assert (H2 : Forall (fun m =>
                 Forall (fun fcu => keyframe_points fcu <> [] ->
                                    fcurve_resolves w_demo m fcu)
                   (animated_fcurves w_demo m))
                 (candidates w_demo)).
  { constructor; [|constructor].
    constructor; [intros _; vm_compute; eexists; reflexivity|].
    constructor; [intros _; vm_compute; eexists; reflexivity|].
    constructor; [intros Hpts; exfalso; apply Hpts; reflexivity|]. constructor. }
  repeat (split; [assumption|]).
  exact (extract_then_apply w_demo "New" H1 H2).
Defined.

(** The preset name of [s_demo] has whitespace around it. *)
Lemma save_operator_success_witness :
  keying_sets_find (Py.strip (ks_apply_shader_set (world s_demo)))
    (keying_sets (world s_demo)) = Some 1%nat /\
  blank (ks_preset_name s_demo) = false /\
  live_values (world s_demo) (paths_of 1 (world s_demo)) [5; 3] /\
  json_dumps (zip_with record_of (paths_of 1 (world s_demo)) [5; 3]) = Some js_demo /\
  exists s',
    KS_OT_SavePreset_execute s_demo = (Return FINISHED, s') /\
    ks_preset_name s' = EmptyString /\
    ks_new_shader_set s' = ks_new_shader_set s_demo /\
    shader_presets (world s') =
      shader_presets (world s_demo) ++
        [{| name := Py.strip (ks_preset_name s_demo); values_json := js_demo |}] /\
    shader_preset_index (world s') =
      Z.of_nat (length (shader_presets (world s_demo))) /\
    reports (world s') =
      reports (world s_demo) ++
        [(INFO, "Preset '" +:+ Py.strip (ks_preset_name s_demo) +:+ "' saved")].
Proof.
  assert (H1 : keying_sets_find (Py.strip (ks_apply_shader_set (world s_demo)))
                 (keying_sets (world s_demo)) = Some 1%nat)
    by (vm_compute; reflexivity).
  assert (H2 : blank (ks_preset_name s_demo) = false) by (vm_compute; reflexivity).
  assert (H3 : live_values (world s_demo) (paths_of 1 (world s_demo)) [5; 3])
    by evaluate.
  assert (H4 : json_dumps (zip_with record_of (paths_of 1 (world s_demo)) [5; 3])
               = Some js_demo) by (vm_compute; reflexivity).
  repeat (split; [assumption|]).
  exact (save_operator_success s_demo 1%nat [5; 3] js_demo H1 H2 H3 H4).
Defined.

(** The preset name of [s_blank] is whitespace only. *)
Lemma save_operator_cancelled_witness :
  (keying_sets_find (Py.strip (ks_apply_shader_set (world s_blank)))
     (keying_sets (world s_blank)) = None \/
   blank (ks_preset_name s_blank) = true) /\
  exists msg,
    KS_OT_SavePreset_execute s_blank =
      (Return CANCELLED,
       with_world
         (set_reports (reports (world s_blank) ++ [(ERROR, msg)]) (world s_blank))
         s_blank).
Proof.
  assert (H : keying_sets_find (Py.strip (ks_apply_shader_set (world s_blank)))
                (keying_sets (world s_blank)) = None \/
              blank (ks_preset_name s_blank) = true)
    by (right; vm_compute; reflexivity).
  split; [exact H|].
  exact (save_operator_cancelled s_blank H).
Defined.

(** The keying-set name of [s_blank] is whitespace only; that of [s_demo]
    is not. *)
Lemma extract_operator_name_witness :
  blank (ks_new_shader_set s_blank) = true /\
  KS_OT_ExtractShader_execute s_blank =
    (Return CANCELLED,
     with_world
       (set_reports (reports (world s_blank) ++ [(ERROR, "Enter a Keying Set name")])
          (world s_blank)) s_blank) /\
  blank (ks_new_shader_set s_demo) = false /\
  exists ks,
    keying_sets_find (Py.strip (ks_new_shader_set s_demo))
      (keying_sets (world (KS_OT_ExtractShader_execute s_demo).2)) = Some ks /\
    keying_sets_active (world (KS_OT_ExtractShader_execute s_demo).2) = Some ks /\
    ks_new_shader_set (KS_OT_ExtractShader_execute s_demo).2 = ks_new_shader_set s_demo /\
    ks_preset_name (KS_OT_ExtractShader_execute s_demo).2 = ks_preset_name s_demo.
Proof.
  assert (H1 : blank (ks_new_shader_set s_blank) = true) by (vm_compute; reflexivity).
  assert (H2 : blank (ks_new_shader_set s_demo) = false) by (vm_compute; reflexivity).
  split; [exact H1|]. split; [|split; [exact H2|]].
  - exact (proj1 (extract_operator_name s_blank) H1).
  - exact (proj2 (extract_operator_name s_demo) H2).
Defined.

(** The store of [w_demo] is empty: its index 0 is out of range. *)
Lemma preset_operators_out_of_range_witness :
  (shader_preset_index w_demo < 0 \/
   Z.of_nat (length (shader_presets w_demo)) <= shader_preset_index w_demo) /\
  KS_OT_ApplyPreset_execute w_demo =
    (Return CANCELLED,
     set_reports (reports w_demo ++ [(ERROR, "Failed to apply preset")]) w_demo) /\
  KS_OT_RemovePreset_execute w_demo = (Return CANCELLED, w_demo).
Proof.
  assert (H : shader_preset_index w_demo < 0 \/
              Z.of_nat (length (shader_presets w_demo)) <= shader_preset_index w_demo)
    by (right; vm_compute; discriminate).
  split; [exact H|].
  exact (preset_operators_out_of_range w_demo H).
Defined.

(** The active preset of [w_fallback] has no record of the socket kind on a
    live owner. *)
Lemma apply_preset_operator_reports_witness :
  0 <= shader_preset_index w_fallback /\
  shader_presets w_fallback !! Z.to_nat (shader_preset_index w_fallback) =
    Some {| name := "F"; values_json := JsonZ.dumps data_fallback |} /\
  json_loads (values_json {| name := "F"; values_json := JsonZ.dumps data_fallback |})
    = Some data_fallback /\
  Forall (fun entry =>
            materials w_fallback !! e_material entry = None \/
            socket_kind entry = false) data_fallback /\
  KS_OT_ApplyPreset_execute w_fallback =
    (Return FINISHED,
     set_reports
       (reports w_fallback ++
          [(INFO, "Applied '" +:+
                  name {| name := "F"; values_json := JsonZ.dumps data_fallback |} +:+
                  "'")])
       (set_keyframes
          (keyframes w_fallback ++
             omap (fallback_commit w_fallback (frame_current w_fallback)) data_fallback)
          w_fallback)).
Proof.
  assert (H1 : 0 <= shader_preset_index w_fallback) by (vm_compute; discriminate).
  assert (H2 : shader_presets w_fallback !! Z.to_nat (shader_preset_index w_fallback) =
               Some {| name := "F"; values_json := JsonZ.dumps data_fallback |})
    by reflexivity.
  assert (H3 : json_loads
                 (values_json {| name := "F"; values_json := JsonZ.dumps data_fallback |})
               = Some data_fallback) by (vm_compute; reflexivity).
  assert (H4 : Forall (fun entry =>
                         materials w_fallback !! e_material entry = None \/
                         socket_kind entry = false) data_fallback).
  { constructor; [right; vm_compute; reflexivity|].
    constructor; [right; vm_compute; reflexivity|].
    constructor; [left; vm_compute; reflexivity|]. constructor. }
  repeat (split; [assumption|]).
  exact (apply_preset_operator_reports w_fallback _ data_fallback H1 H2 H3 H4).
Defined.

(** Nothing is selected in [w_color], whose keying set [KS] has an entry. *)
Lemma extract_nothing_selected_witness :
  candidates w_color = [] /\
  paths_of 0 w_color = [path_socket0] /\
  let r := extract_shader_keying_set "KS" w_color in
  exists ks,
    r.1 = Return O /\
    keying_sets_find "KS" (keying_sets r.2) = Some ks /\
    paths_of ks r.2 = [].
Proof.
  assert (H : candidates w_color = []) by reflexivity.
  split; [exact H|]. split; [reflexivity|].
  exact (extract_nothing_selected w_color "KS" H).
Defined.
